(** * move_tests.py: relocation of inline Rust test modules

    A shallow embedding of
    [betting_platform/programs/betting_platform_native/move_tests.py]:
    the text primitives the script uses ([in], [count], [strip],
    [startswith], slicing, [readlines]), the block detector and
    brace matcher of [extract_test_module], the fragment collector and
    path arithmetic of [create_test_file], and the driver [main] over a
    file system with an event trace.

    Text is modelled as [string]; a character stands for a code point
    below 256, and a file's content is the text Python's text mode hands
    out (line ends already translated to a single line feed). *)

From stdpp Require Import gmap strings list.
From Stdlib Require Import Ascii ZArith Lia.

Local Open Scope Z_scope.
Local Open Scope nat_scope.

(** ** Text primitives *)

Module Text.

(** The line feed, and a line closed by it. *)
Definition nl : string := String "010"%char "".
Definition ln (s : string) : string := s +:+ nl.

(** [s.startswith(p)] *)
Fixpoint startswith (p s : string) : bool :=
  match p, s with
  | EmptyString, _ => true
  | String a p', String b s' => if decide (a = b) then startswith p' s' else false
  | String _ _, EmptyString => false
  end.

(** [p in s] *)
Fixpoint contains (p s : string) : bool :=
  startswith p s ||
  match s with
  | EmptyString => false
  | String _ s' => contains p s'
  end.

(** [s.endswith(p)], on the reversed texts. *)
Definition endswith (p s : string) : bool :=
  startswith (String.rev p) (String.rev s).

(** [s.count(c)] for a one-character needle. *)
Fixpoint count (c : ascii) (s : string) : nat :=
  match s with
  | EmptyString => 0
  | String b s' => (if decide (b = c) then 1 else 0) + count c s'
  end.

(** The characters [str.isspace] accepts among the code points below 256. *)
Definition isspace (c : ascii) : bool :=
  match c with
  | "009" | "010" | "011" | "012" | "013"
  | "028" | "029" | "030" | "031" | " " | "133" | "160" => true
  | _ => false
  end%char.

Fixpoint lstrip (s : string) : string :=
  match s with
  | EmptyString => EmptyString
  | String c s' => if isspace c then lstrip s' else s
  end.

Fixpoint rstrip (s : string) : string :=
  match s with
  | EmptyString => EmptyString
  | String c s' =>
      match rstrip s' with
      | EmptyString => if isspace c then EmptyString else String c EmptyString
      | r => String c r
      end
  end.

(** [s.strip()] *)
Definition strip (s : string) : string := rstrip (lstrip s).

(** Truth value of a text: non-empty. *)
Definition truthy (s : string) : bool :=
  match s with EmptyString => false | _ => true end.

(** [s[n:]] *)
Fixpoint slice_from (n : nat) (s : string) : string :=
  match n, s with
  | 0, _ => s
  | S n', String _ s' => slice_from n' s'
  | S _, EmptyString => EmptyString
  end.

(** [s[:n]] *)
Fixpoint slice_to (n : nat) (s : string) : string :=
  match n, s with
  | 0, _ => EmptyString
  | S n', String c s' => String c (slice_to n' s')
  | S _, EmptyString => EmptyString
  end.

(** [s.rfind(c)] for a one-character needle; [None] stands for -1. *)
Fixpoint rfind (c : ascii) (s : string) : option nat :=
  match s with
  | EmptyString => None
  | String b s' =>
      match rfind c s' with
      | Some i => Some (S i)
      | None => if decide (b = c) then Some 0 else None
      end
  end.

(** [''.join(parts)]; also the text [f.writelines(parts)] leaves in
    a file opened for writing. *)
Fixpoint joined (parts : list string) : string :=
  match parts with
  | [] => EmptyString
  | p :: rest => p +:+ joined rest
  end.

(** [sep.join(parts)] *)
Fixpoint join (sep : string) (parts : list string) : string :=
  match parts with
  | [] => EmptyString
  | [p] => p
  | p :: rest => p +:+ sep +:+ join sep rest
  end.

(** [f.readlines()] on the whole content: every line keeps its line
    feed; the last one may lack it. *)
Fixpoint readlines (s : string) : list string :=
  match s with
  | EmptyString => []
  | String c s' =>
      if decide (c = "010"%char) then String c EmptyString :: readlines s'
      else match readlines s' with
           | [] => [String c EmptyString]
           | l :: ls => String c l :: ls
           end
  end.

(** [c.lower()] on the code points below 256: the letters A to Z and
    the accented capitals 192 to 222, the multiplication sign 215
    apart, move up by 32. *)
Definition lower_char (c : ascii) : ascii :=
  let n := nat_of_ascii c in
  if ((65 <=? n) && (n <=? 90)) || ((192 <=? n) && (n <=? 222) && negb (n =? 215))
  then ascii_of_nat (n + 32)
  else c.

(** [s.lower()] *)
Fixpoint lower (s : string) : string :=
  match s with
  | EmptyString => EmptyString
  | String c s' => String (lower_char c) (lower s')
  end.

End Text.

Import Text.

(** ** extract_test_module *)

Definition cfg_test : string := "#[cfg(test)]".
Definition mod_tests : string := "mod tests".
Definition lbrace : ascii := "{"%char.
Definition rbrace : ascii := "}"%char.

(** [line.count('{') - line.count('}')] *)
Definition brace_delta (line : string) : Z :=
  Z.of_nat (count lbrace line) - Z.of_nat (count rbrace line).

(** [j < len(lines) and 'mod tests' in lines[j]] *)
Definition mod_tests_at (lines : list string) (j : nat) : bool :=
  match lines !! j with
  | Some l => contains mod_tests l
  | None => false
  end.

(** The first loop: [rest] is what [enumerate(lines)] still has to
    yield, [i] the index of its head.  [None] stands for the sentinel -1. *)
Fixpoint find_test_start (lines rest : list string) (i : nat) : option nat :=
  match rest with
  | [] => None
  | line :: rest' =>
      if contains cfg_test line then
        if mod_tests_at lines (i + 1) then Some i
        else if mod_tests_at lines (i + 2) then Some i
        else find_test_start lines rest' (S i)
      else find_test_start lines rest' (S i)
  end.

(** The declaration test of the second loop:
    ['mod tests' in line and '{' in line]. *)
Definition opens_module (line : string) : bool :=
  contains mod_tests line && contains "{" line.

(** The locals of the second loop, with [stopped] recording whether the
    loop left through [break]. *)
Record scan_state := ScanState {
  brace_count : Z;
  test_end : nat;
  in_test_module : bool;
  stopped : bool
}.

(** The second loop over [range(test_start, len(lines))]: [rest] is
    [lines[i:]]. *)
Fixpoint scan_braces (rest : list string) (i : nat) (st : scan_state) : scan_state :=
  match rest with
  | [] => st
  | line :: rest' =>
      if opens_module line then
        scan_braces rest' (S i) (ScanState 1 i true false)
      else if in_test_module st then
        let bc := (brace_count st + brace_delta line)%Z in
        if (bc =? 0)%Z then ScanState bc i true true
        else scan_braces rest' (S i) (ScanState bc (test_end st) true false)
      else scan_braces rest' (S i) st
  end.

Definition scan_from (lines : list string) (test_start : nat) : scan_state :=
  scan_braces (drop test_start lines) test_start (ScanState 0 test_start false false).

(** [line.strip() == ''] *)
Definition is_blank (line : string) : bool := negb (truthy (strip line)).

(** [while remaining_lines and remaining_lines[-1].strip() == '':
       remaining_lines.pop()]; the list length bounds the iterations. *)
Fixpoint pop_blank (fuel : nat) (ls : list string) : list string :=
  match fuel with
  | 0 => ls
  | S fuel' =>
      match last ls with
      | Some l => if is_blank l then pop_blank fuel' (removelast ls) else ls
      | None => ls
      end
  end.

Definition strip_trailing_blank (ls : list string) : list string :=
  pop_blank (length ls) ls.

(** [lines[a:b+1]] *)
Definition slice (lines : list string) (a b : nat) : list string :=
  take (S b - a) (drop a lines).

(** The function on the lines read; [None] in the first component is
    Python's [None]. *)
Definition extract_lines (lines : list string)
  : option (list string) * list string :=
  match find_test_start lines lines 0 with
  | None => (None, lines)
  | Some test_start =>
      let test_end := test_end (scan_from lines test_start) in
      let test_module := slice lines test_start test_end in
      let remaining_lines := take test_start lines ++ drop (S test_end) lines in
      (Some test_module, strip_trailing_blank remaining_lines)
  end.

(** ** get_imports_from_file *)

(** The test of the loop:
    [line.startswith('use ') and 'test' not in line.lower()]. *)
Definition is_import (line : string) : bool :=
  startswith "use " line && negb (contains "test" (lower line)).

(** The loop over the lines, [imports] being the list built so far. *)
Fixpoint imports_from (lines imports : list string) : list string :=
  match lines with
  | [] => imports
  | line :: rest =>
      if is_import line then imports_from rest (imports ++ [line])
      else imports_from rest imports
  end.

(** ** Paths and create_test_file *)

(** A path is the list of its components; [Path('src')] is [["src"]]. *)
Abbreviation path := (list string).

Definition src_dir : path := ["src"].
Definition tests_dir : path := ["tests"].

(** [Path.name], [Path.parent] and [Path.parts[:-1]] of a relative path. *)
Definition name (p : path) : string := default "" (last p).
Definition parent (p : path) : path := removelast p.

(** [Path.stem]: the name up to its last dot, when that dot is neither
    the first nor the last character. *)
Definition stem (p : path) : string :=
  let name := name p in
  match rfind "." name with
  | Some i =>
      if ((0 <? Z.of_nat i) && (Z.of_nat i <? Z.of_nat (String.length name) - 1))%Z
      then slice_to i name
      else name
  | None => name
  end.

(** [Path(src_file_path).relative_to(src_dir)]; [None] is the ValueError
    of a path outside [src]. *)
Definition relative_to_src (p : path) : option path :=
  match p with
  | d :: rel => if decide (d = "src") then Some rel else None
  | [] => None
  end.

(** [test_dir / rel_path.parent / (rel_path.stem + '_tests.rs')] *)
Definition test_file_path (test_dir rel_path : path) : path :=
  test_dir ++ parent rel_path ++ [stem rel_path +:+ "_tests.rs"].

Definition module_parts (rel_path : path) : list string :=
  filter (λ part, part ≠ "mod.rs") (parent rel_path)
  ++ (if decide (stem rel_path ≠ "mod") then [stem rel_path] else []).

Definition module_path (rel_path : path) : string :=
  join "::" (module_parts rel_path).

(** The five fixed lines every test file opens with. *)
Definition header (rel_path : path) : list string :=
  [ ln ("use betting_platform_native::" +:+ module_path rel_path +:+ "::*;");
    ln "use solana_program::pubkey::Pubkey;";
    ln "use solana_program::clock::Clock;";
    ln "use solana_program::program_error::ProgramError;";
    nl ].

(** The locals of the fragment loop of [create_test_file]. *)
Record collector := Collector {
  test_functions : list (list string);
  in_test_fn : bool;
  current_fn : list string;
  indent_level : Z
}.

Definition collect_line (c : collector) (line : string) : collector :=
  if contains "#[test]" line then
    Collector (test_functions c) true [line] (indent_level c)
  else if in_test_fn c then
    let current_fn := current_fn c ++ [line] in
    if contains "{" line then
      Collector (test_functions c) true current_fn
                (indent_level c + brace_delta line)
    else if contains "}" line then
      let indent_level := (indent_level c + brace_delta line)%Z in
      if (indent_level =? 0)%Z && contains "fn " (joined current_fn) then
        Collector (test_functions c ++ [current_fn]) false [] indent_level
      else Collector (test_functions c) true current_fn indent_level
    else Collector (test_functions c) true current_fn (indent_level c)
  else c.

Definition collect_test_functions (test_module : list string)
  : list (list string) :=
  test_functions (foldl collect_line (Collector [] false [] 0) test_module).

(** One line of a fragment with one level of indentation removed. *)
Definition clean_line (line : string) : string :=
  if truthy (strip line) then
    if startswith "    " line then slice_from 4 line else line
  else line.

(** The lines written to the test file. *)
Definition test_file_content (rel_path : path) (test_module : list string)
  : list string :=
  header rel_path
  ++ flat_map (λ test_fn, map clean_line test_fn ++ [nl])
              (collect_test_functions test_module).

(** ** The file system, its events and the I/O monad *)

Inductive message :=
| FindingModules
| FoundFiles (n : nat)
| Processing (file_path : path)
| CreatedTestFile (test_file_path : path)
| RemovedTestModule
| NoTestModuleFound
| ProcessedFiles (n : nat).

(** [Wrote] records that a file was opened for writing, which empties
    it, and holds what was written of the text since: all of it, or its
    beginning when the write failed on the way. *)
Inductive event :=
| Printed (m : message)
| MadeDirs (dir : path)
| Wrote (file_path : path).

(** [CannotWrite] is the failure of [open(path, 'w')], [WriteFailed]
    the failure of writing after the file was opened, [CannotMakeDirs]
    the failure of [Path.mkdir]. *)
Inductive error :=
| CannotRead (file_path : path)
| CannotWrite (file_path : path)
| NotUnderSrc (file_path : path)
| CannotMakeDirs (dir : path)
| WriteFailed (file_path : path).

(** What the run does not change: the files [os.walk] yields below
    [src] (paths relative to it, in its order), the paths that cannot
    be opened for reading or for writing, the directories that cannot
    be made, and the paths on which a write fails after the file was
    opened, with the number of characters that reach the file before
    it does. *)
Record world := World {
  listing : list path;
  unreadable : gset path;
  unwritable : gset path;
  unmakeable : gset path;
  cut_short : gmap path nat
}.

(** What the run changes: the content of the files, and the trace of
    what was printed and written. *)
Record state := State {
  files : gmap path string;
  trace : list event
}.

Inductive outcome (A : Type) :=
| Done (a : A)
| Raised (e : error).
Arguments Done {A} a.
Arguments Raised {A} e.

Definition io (A : Type) : Type := state → state * outcome A.

Global Instance io_ret : MRet io := λ A a σ, (σ, Done a).
Global Instance io_bind : MBind io := λ A B k m σ,
  match m σ with
  | (σ', Done a) => k a σ'
  | (σ', Raised e) => (σ', Raised e)
  end.

Definition raise {A} (e : error) : io A := λ σ, (σ, Raised e).

Definition print (m : message) : io unit :=
  λ σ, (State (files σ) (trace σ ++ [Printed m]), Done ()).

Section Run.

Variable w : world.

(** [open(file_path, 'r')] followed by reading everything. *)
Definition read_text (file_path : path) : io string := λ σ,
  if decide (file_path ∈ unreadable w) then (σ, Raised (CannotRead file_path))
  else match files σ !! file_path with
       | Some content => (σ, Done content)
       | None => (σ, Raised (CannotRead file_path))
       end.

(** [open(file_path, 'w')] followed by [f.writelines(lines)]: the open
    may fail and leave the file as it is; once it succeeds the file is
    emptied, and a write that fails on the way leaves the beginning of
    the text in it. *)
Definition write_lines (file_path : path) (lines : list string) : io unit := λ σ,
  if decide (file_path ∈ unwritable w) then (σ, Raised (CannotWrite file_path))
  else match cut_short w !! file_path with
       | Some n =>
           (State (<[file_path := slice_to n (joined lines)]> (files σ))
                  (trace σ ++ [Wrote file_path]), Raised (WriteFailed file_path))
       | None =>
           (State (<[file_path := joined lines]> (files σ))
                  (trace σ ++ [Wrote file_path]), Done ())
       end.

(** [Path.mkdir(parents=True, exist_ok=True)]: raises when the
    directory cannot be made (no permission, a file in the way). *)
Definition make_dirs (dir : path) : io unit := λ σ,
  if decide (dir ∈ unmakeable w) then (σ, Raised (CannotMakeDirs dir))
  else (State (files σ) (trace σ ++ [MadeDirs dir]), Done ()).

(** The loops of [find_test_modules] over the walk. *)
Fixpoint find_in (walk : list path) (test_files : list path) : io (list path) :=
  match walk with
  | [] => mret test_files
  | rel :: walk' =>
      if endswith ".rs" (name rel) then
        let file_path := src_dir ++ rel in
        content ← read_text file_path;
        if contains cfg_test content && contains mod_tests content
        then find_in walk' (test_files ++ [file_path])
        else find_in walk' test_files
      else find_in walk' test_files
  end.

Definition find_test_modules : io (list path) := find_in (listing w) [].

Definition extract_test_module (file_path : path)
  : io (option (list string) * list string) :=
  content ← read_text file_path;
  mret (extract_lines (readlines content)).

Definition create_test_file (src_file_path : path) (test_module : list string)
    (test_dir : path) : io path :=
  match relative_to_src src_file_path with
  | None => raise (NotUnderSrc src_file_path)
  | Some rel_path =>
      let test_file_path := test_file_path test_dir rel_path in
      make_dirs (parent test_file_path);;
      write_lines test_file_path (test_file_content rel_path test_module);;
      mret test_file_path
  end.

(** Python's truth value of [test_module]: [None] and the empty list
    are false. *)
Definition found (test_module : option (list string)) : option (list string) :=
  match test_module with
  | Some (l :: ls) => Some (l :: ls)
  | _ => None
  end.

(** The body of the loop of [main] for one file; the result tells
    whether [processed] is incremented. *)
Definition process_file (file_path : path) : io bool :=
  print (Processing file_path);;
  '(test_module, remaining_lines) ← extract_test_module file_path;
  match found test_module with
  | Some test_module =>
      test_file_path ← create_test_file file_path test_module tests_dir;
      print (CreatedTestFile test_file_path);;
      write_lines file_path remaining_lines;;
      print RemovedTestModule;;
      mret true
  | None =>
      print NoTestModuleFound;;
      mret false
  end.

Fixpoint process_all (test_files : list path) (processed : nat) : io nat :=
  match test_files with
  | [] => mret processed
  | file_path :: rest =>
      moved ← process_file file_path;
      process_all rest (if moved : bool then processed + 1 else processed)
  end.


Definition main : io nat :=
  print FindingModules;;
  test_files ← find_test_modules;
  print (FoundFiles (length test_files));;
  processed ← process_all test_files 0;
  print (ProcessedFiles processed);;
  mret processed.

End Run.


(** The state with further events at the end of its trace. *)
Definition logged (σ : state) (evs : list event) : state :=
  State (files σ) (trace σ ++ evs).

(** The events of a file that is moved, up to the write of the test
    file, and from there to the end. *)
Definition moving (file_path test_file_path : path) : list event :=
  [Printed (Processing file_path); MadeDirs (parent test_file_path)].

Definition moved (file_path test_file_path : path) : list event :=
  [Wrote test_file_path; Printed (CreatedTestFile test_file_path)].


(** The path [find_test_modules] lists for a walked file, if any: the
    file is a [.rs] file whose content holds both markers. *)
Definition listed (fs : gmap path string) (rel : path) : option path :=
  if endswith ".rs" (name rel) then
    match fs !! (src_dir ++ rel) with
    | Some content =>
        if contains cfg_test content && contains mod_tests content
        then Some (src_dir ++ rel) else None
    | None => None
    end
  else None.

(** A walked [.rs] file can be opened and read. *)
Definition openable (w : world) (fs : gmap path string) (rel : path) : Prop :=
  endswith ".rs" (name rel) = true →
  (src_dir ++ rel ∉ unreadable w) ∧ is_Some (fs !! (src_dir ++ rel)).



(** ** Files with one block *)

(** At most one line holds the block marker. *)
Definition single_marker (lines : list string) : Prop :=
  ∀ i j li lj,
    lines !! i = Some li → lines !! j = Some lj →
    contains cfg_test li = true → contains cfg_test lj = true → i = j.

(** No block is found in a content. *)
Definition settled (content : string) : Prop :=
  (extract_lines (readlines content)).1 = None.

(** Every source file is settled or has at most one marker line. *)
Definition tidy (fs : gmap path string) : Prop :=
  ∀ rel content,
    fs !! (src_dir ++ rel) = Some content →
    settled content ∨ single_marker (readlines content).

(** A line closed by its line feed, and a last line without one. *)
Definition complete_line (l : string) : Prop :=
  ∃ b, l = b +:+ nl ∧ count "010" b = 0.

Definition partial_line (l : string) : Prop :=
  l ≠ "" ∧ count "010" l = 0.

(** Lines as [readlines] cuts them: all complete, the last one
    possibly partial. *)
Fixpoint well_split (ls : list string) : Prop :=
  match ls with
  | [] => True
  | [l] => complete_line l ∨ partial_line l
  | l :: ls' => complete_line l ∧ well_split ls'
  end.

(** What the second run prints for the files it lists. *)
Definition no_module_reports (test_files : list path) : list event :=
  flat_map (λ p, [Printed (Processing p); Printed NoTestModuleFound]) test_files.

(** ** Delimiter balance of a span *)

(** The sum of [count('{') - count('}')] over some lines. *)
Definition balance (ls : list string) : Z :=
  foldr (λ l acc, (brace_delta l + acc)%Z) 0%Z ls.

(** The counter of the second loop after line [k], when line [m] opened
    the module: one for the opening line, then the braces of the lines
    [m+1 .. k]. *)
Definition count_from (lines : list string) (m k : nat) : Z :=
  (1 + balance (slice lines (S m) k))%Z.

(** Line [j] exists and passes the declaration test of the second loop. *)
Definition opened_at (lines : list string) (j : nat) : Prop :=
  ∃ l, lines !! j = Some l ∧ opens_module l = true.

(** The balance invariant of a span, as the specification words it:
    the braces of [lines[test_start..test_end]] sum to zero, no prefix
    sums below zero, every proper prefix sums above zero. *)
Definition balance_invariant (lines : list string) (test_start test_end : nat) : Prop :=
  test_start ≤ test_end ∧
  balance (slice lines test_start test_end) = 0%Z ∧
  (∀ k, test_start ≤ k ≤ test_end → (0 ≤ balance (slice lines test_start k))%Z) ∧
  (∀ k, test_start ≤ k < test_end → (0 < balance (slice lines test_start k))%Z).

(** The matcher in the words of the specification: the counter starts
    at zero; the first line with an opening brace sets it to one and
    marks the scan as inside; every later line adds its opening minus
    closing count; the end line is the first at which the counter is
    zero again. *)
Fixpoint spec_matcher (rest : list string) (i : nat) (counter : Z) (inside : bool)
  : option nat :=
  match rest with
  | [] => None
  | line :: rest' =>
      if inside then
        let counter := (counter + brace_delta line)%Z in
        if (counter =? 0)%Z then Some i
        else spec_matcher rest' (S i) counter true
      else if contains "{" line then spec_matcher rest' (S i) 1 true
      else spec_matcher rest' (S i) counter false
  end.

Definition spec_end_line (lines : list string) (test_start : nat) : option nat :=
  spec_matcher (drop test_start lines) test_start 0 false.

(** ** The round trip *)

(** The fragments as the test file holds them. *)
Definition destination_fragments (test_module : list string) : list (list string) :=
  map (map clean_line) (collect_test_functions test_module).

(** The round trip in the words of the specification: the fragments of
    the test file, every line given one four-space unit back, put at
    the start line of the block into the rewritten source. *)
Definition indent_line (line : string) : string := "    " +:+ line.

Definition round_trip (test_start : nat) (fragments : list (list string))
    (remaining_lines : list string) : list string :=
  take test_start remaining_lines
  ++ map indent_line (concat fragments)
  ++ drop test_start remaining_lines.

(** The unit given back to the lines that are not blank only. *)
Definition reindent_line (line : string) : string :=
  if truthy (strip line) then "    " +:+ line else line.

(** ** Further notions *)


(** The fragment marker, and the number of lines of a block holding it. *)
Definition has_test_marker (line : string) : bool := contains "#[test]" line.

Definition marked_lines (block : list string) : nat :=
  length (filter (λ l, has_test_marker l = true) block).

(** From [σ] to [σ'] no file disappears, and a file keeps its content
    unless it is a walked source file or the test file of one. *)
Definition only_listed_change (w : world) (σ σ' : state) : Prop :=
  (∀ q, is_Some (files σ !! q) → is_Some (files σ' !! q)) ∧
  ∀ q, (∀ rel, rel ∈ listing w →
               q ≠ src_dir ++ rel ∧ q ≠ test_file_path tests_dir rel) →
       files σ' !! q = files σ !! q.

(** ** Annotated functions *)





(** ** Sample inputs *)

(** The smallest test module. *)
Definition plain_block : list string :=
  [ln "#[cfg(test)]"; ln "mod tests {"; ln "}"].

(** A test module followed by a blank line. *)
Definition blank_tail : list string :=
  [ln "#[cfg(test)]"; ln "mod tests {"; ln "}"; nl].

(** A closing line that over-closes before a line that re-opens. *)
Definition dipping_block : list string :=
  [ln "#[cfg(test)]"; ln "mod tests {"; ln "}}"; ln "{"].

(** A second opening brace on the declaration line. *)
Definition double_open : list string :=
  [ln "#[cfg(test)]"; ln "mod tests { {"; ln "}"].

(** The opening brace on a line of its own. *)
Definition allman : list string :=
  [ln "#[cfg(test)]"; ln "mod tests"; ln "{"; ln "}"].

(** A library file with one test module. *)
Definition lib_lines : list string :=
  [ ln "pub fn f() {}"; ln "#[cfg(test)]"; ln "mod tests {";
    ln "    use super::*;"; ln "    #[test]"; ln "    fn t() {";
    ln "        f();"; ln "    }"; ln "}" ].

Definition lib_rs : string := joined lib_lines.



Definition lib_world : world := World [["lib.rs"]] ∅ ∅ ∅ ∅.

Definition lib_tree : state := State {[ ["src"; "lib.rs"] := lib_rs ]} [].

(** The block and the remainder of [lib_lines]. *)
Definition lib_block : list string :=
  [ ln "#[cfg(test)]"; ln "mod tests {"; ln "    use super::*;";
    ln "    #[test]"; ln "    fn t() {"; ln "        f();"; ln "    }"; ln "}" ].

Definition lib_rem : list string := [ln "pub fn f() {}"].





(** A file with two test modules, alone in its tree. *)
Definition two_blocks : list string :=
  [ ln "#[cfg(test)]"; ln "mod tests {"; ln "}";
    ln "#[cfg(test)]"; ln "mod tests {"; ln "}" ].

Definition two_blocks_tree : state :=
  State {[ ["src"; "lib.rs"] := joined two_blocks ]} [].

(** * Properties *)

(** ** Text *)

Lemma append_nil_l (s : string) : "" +:+ s = s.
Proof. reflexivity. Qed.

Lemma append_cons (a : ascii) (s t : string) :
  String a s +:+ t = String a (s +:+ t).
Proof. reflexivity. Qed.

Lemma append_nil_r (s : string) : s +:+ "" = s.
Proof. induction s as [|a s IH]; [done|]. by rewrite append_cons, IH. Qed.

Lemma append_assoc (s t u : string) : (s +:+ t) +:+ u = s +:+ (t +:+ u).
Proof. induction s as [|a s IH]; [done|]. by rewrite !append_cons, IH. Qed.

Lemma length_append (s t : string) :
  String.length (s +:+ t) = String.length s + String.length t.
Proof. induction s as [|a s IH]; [done|]. rewrite append_cons. simpl. by rewrite IH. Qed.

Lemma joined_app (xs ys : list string) :
  joined (xs ++ ys) = joined xs +:+ joined ys.
Proof.
  induction xs as [|x xs IH]; simpl; [done|].
  by rewrite IH, append_assoc.
Qed.

Lemma joined_readlines (s : string) : joined (readlines s) = s.
Proof.
  induction s as [|c s IH]; simpl; [done|].
  case_decide.
  - simpl. by rewrite append_cons, append_nil_l, IH.
  - destruct (readlines s) as [|l ls]; simpl in *.
    + by rewrite <- IH.
    + by rewrite append_cons, IH.
Qed.

(** ** Trailing blank lines *)

Lemma pop_blank_spec (fuel : nat) (ls : list string) :
  length ls ≤ fuel →
  ∃ blanks, ls = pop_blank fuel ls ++ blanks ∧
            Forall (λ l, is_blank l = true) blanks ∧
            (∀ l, last (pop_blank fuel ls) = Some l → is_blank l = false).
Proof.
  revert ls. induction fuel as [|fuel IH]; intros ls Hlen.
  - destruct ls; [|simpl in Hlen; lia]. exists []. simpl. split_and!; [done|constructor|done].
  - simpl. destruct (last ls) as [l|] eqn:Hlast.
    + apply last_Some in Hlast as [ls' ->].
      rewrite removelast_last.
      destruct (is_blank l) eqn:Hb.
      * destruct (IH ls') as (blanks & Heq & Hall & Hlst).
        { rewrite length_app in Hlen. simpl in Hlen. lia. }
        exists (blanks ++ [l]). split_and!.
        -- rewrite app_assoc. by rewrite <- Heq.
        -- apply Forall_app. split; [done|]. by constructor.
        -- done.
      * exists []. split_and!; [by rewrite app_nil_r|constructor|].
        intros l'. rewrite last_snoc. congruence.
    + exists []. split_and!; [by rewrite app_nil_r|constructor|].
      intros l'. congruence.
Qed.

Lemma strip_trailing_blank_spec (ls : list string) :
  ∃ blanks, ls = strip_trailing_blank ls ++ blanks ∧
            Forall (λ l, is_blank l = true) blanks ∧
            (∀ l, last (strip_trailing_blank ls) = Some l → is_blank l = false).
Proof. by apply pop_blank_spec. Qed.

(** ** The first loop *)

Lemma find_test_start_spec (lines rest : list string) (i s : nat) :
  find_test_start lines rest i = Some s →
  i ≤ s < i + length rest ∧
  (∃ l, rest !! (s - i) = Some l ∧ contains cfg_test l = true) ∧
  (mod_tests_at lines (s + 1) = true ∨ mod_tests_at lines (s + 2) = true).
Proof.
  revert i. induction rest as [|line rest IH]; intros i; simpl; [done|].
  intros H.
  assert (find_test_start lines rest (S i) = Some s →
          i ≤ s < i + S (length rest) ∧
          (∃ l, (line :: rest) !! (s - i) = Some l ∧ contains cfg_test l = true) ∧
          (mod_tests_at lines (s + 1) = true ∨ mod_tests_at lines (s + 2) = true))
    as Hrec.
  { intros H'. destruct (IH _ H') as ([? ?] & (l & Hl & Hc) & Hm).
    split_and!; [lia|lia| |done].
    exists l. split; [|done].
    replace (s - i) with (S (s - S i)) by lia. done. }
  destruct (contains cfg_test line) eqn:Hc; [|by apply Hrec].
  destruct (mod_tests_at lines (i + 1)) eqn:H1.
  { simplify_eq. split_and!; [lia|lia| |by left].
    exists line. by rewrite Nat.sub_diag. }
  destruct (mod_tests_at lines (i + 2)) eqn:H2; [|by apply Hrec].
  simplify_eq. split_and!; [lia|lia| |by right].
  exists line. by rewrite Nat.sub_diag.
Qed.

Lemma find_test_start_lt (lines : list string) (s : nat) :
  find_test_start lines lines 0 = Some s → s < length lines.
Proof. intros H. apply find_test_start_spec in H. lia. Qed.

(** ** The second loop *)

Local Arguments slice : simpl never.
Local Arguments balance : simpl never.
Local Arguments count_from : simpl never.

Lemma balance_cons (l : string) (ls : list string) :
  balance (l :: ls) = (brace_delta l + balance ls)%Z.
Proof. reflexivity. Qed.

Lemma balance_app (xs ys : list string) :
  balance (xs ++ ys) = (balance xs + balance ys)%Z.
Proof.
  induction xs as [|x xs IH]; [unfold balance; simpl; lia|].
  rewrite <- app_comm_cons, !balance_cons, IH. lia.
Qed.

Lemma slice_cons_S (l : string) (ls : list string) (a k : nat) :
  slice (l :: ls) (S a) (S k) = slice ls a k.
Proof. reflexivity. Qed.

Lemma slice_0_S (l : string) (ls : list string) (k : nat) :
  slice (l :: ls) 0 (S k) = l :: slice ls 0 k.
Proof. reflexivity. Qed.

Lemma slice_0_0 (l : string) (ls : list string) : slice (l :: ls) 0 0 = [l].
Proof. reflexivity. Qed.

Lemma slice_drop (lines : list string) (s a k : nat) :
  slice (drop s lines) a k = slice lines (s + a) (s + k).
Proof.
  unfold slice. rewrite drop_drop. f_equal. lia.
Qed.

Lemma opened_at_0 (l : string) (ls : list string) :
  opened_at (l :: ls) 0 ↔ opens_module l = true.
Proof.
  unfold opened_at. simpl. split.
  - intros (l' & [= <-] & H). done.
  - intros H. eauto.
Qed.

Lemma opened_at_S (l : string) (ls : list string) (j : nat) :
  opened_at (l :: ls) (S j) ↔ opened_at ls j.
Proof. reflexivity. Qed.

Lemma opened_at_drop (lines : list string) (s j : nat) :
  opened_at (drop s lines) j ↔ opened_at lines (s + j).
Proof. unfold opened_at. by rewrite lookup_drop. Qed.

Lemma count_from_cons_S (l : string) (ls : list string) (m k : nat) :
  count_from (l :: ls) (S m) k = count_from ls m (pred k).
Proof. by destruct k. Qed.

Lemma count_from_0 (l : string) (ls : list string) (k : nat) :
  count_from (l :: ls) 0 (S k) = (1 + balance (slice ls 0 k))%Z.
Proof. reflexivity. Qed.

Lemma count_from_drop (lines : list string) (s m k : nat) :
  count_from (drop s lines) m k = count_from lines (s + m) (s + k).
Proof.
  unfold count_from. rewrite slice_drop. do 3 f_equal. lia.
Qed.

Lemma scan_braces_test_end (rest : list string) (i : nat) (st : scan_state) :
  test_end (scan_braces rest i st) = test_end st ∨
  i ≤ test_end (scan_braces rest i st) < i + length rest.
Proof.
  revert i st. induction rest as [|line rest IH]; intros i st; simpl; [by left|].
  destruct (opens_module line).
  { destruct (IH (S i) (ScanState 1 i true false)) as [-> | ?]; simpl; right; lia. }
  destruct (in_test_module st).
  - destruct (_ =? _)%Z; [simpl; right; lia|].
    destruct (IH (S i) (ScanState (brace_count st + brace_delta line)
                                   (test_end st) true false)) as [-> | ?];
      simpl; [by left|right; lia].
  - destruct (IH (S i) st) as [-> | ?]; [by left|right; lia].
Qed.

(** A scan that left through [break] at line [i + e] of [rest]: either
    a line [m] before it opened the module last, and the counter that
    restarts at one there is zero at [e] and nowhere before; or no line
    up to [e] opened it, the scan was inside already, and its counter
    reaches zero at [e] for the first time. *)
Lemma scan_braces_stopped (rest : list string) (i : nat) (st : scan_state) :
  stopped st = false →
  stopped (scan_braces rest i st) = true →
  ∃ e, test_end (scan_braces rest i st) = i + e ∧ e < length rest ∧
    ((∃ m, m < e ∧ opened_at rest m ∧ (∀ j, m < j ≤ e → ¬ opened_at rest j) ∧
           count_from rest m e = 0%Z ∧
           ∀ k, m ≤ k < e → count_from rest m k ≠ 0%Z)
     ∨ (in_test_module st = true ∧ (∀ j, j ≤ e → ¬ opened_at rest j) ∧
        (brace_count st + balance (slice rest 0 e))%Z = 0%Z ∧
        ∀ k, k < e → (brace_count st + balance (slice rest 0 k))%Z ≠ 0%Z)).
Proof.
  revert i st. induction rest as [|line rest IH]; intros i st Hst Hr; simpl in *.
  { congruence. }
  destruct (opens_module line) eqn:Ho.
  - destruct (IH (S i) (ScanState 1 i true false) eq_refl Hr)
      as (e & He & Hlt & Hcase).
    exists (S e). split; [lia|]. split; [lia|]. left.
    destruct Hcase as [(m & Hm & Hop & Hno & Hz & Hnz) | (_ & Hno & Hz & Hnz)].
    + exists (S m). split_and!.
      * lia.
      * by apply opened_at_S.
      * intros [|j] Hj; [lia|]. rewrite opened_at_S. apply Hno. lia.
      * by rewrite count_from_cons_S.
      * intros [|k] Hk; [lia|]. rewrite count_from_cons_S. apply Hnz. simpl. lia.
    + exists 0. split_and!.
      * lia.
      * by apply opened_at_0.
      * intros [|j] Hj; [lia|]. rewrite opened_at_S. apply Hno. lia.
      * by rewrite count_from_0.
      * intros [|k] Hk; [done|]. rewrite count_from_0. apply Hnz. lia.
  - destruct (in_test_module st) eqn:Hin.
    + destruct (Z.eqb_spec (brace_count st + brace_delta line) 0) as [Hz|Hnz0].
      * exists 0. split; [simpl; lia|]. split; [lia|]. right. split_and!.
        -- done.
        -- intros j Hj. assert (j = 0) as -> by lia. rewrite opened_at_0. congruence.
        -- rewrite slice_0_0, balance_cons. unfold balance. simpl. lia.
        -- intros; lia.
      * destruct (IH (S i) (ScanState (brace_count st + brace_delta line)
                                      (test_end st) true false) eq_refl Hr)
          as (e & He & Hlt & Hcase).
        exists (S e). split; [lia|]. split; [lia|].
        destruct Hcase as [(m & Hm & Hop & Hno & Hz & Hnz) | (_ & Hno & Hz & Hnz)].
        -- left. exists (S m). split_and!.
           ++ lia.
           ++ by apply opened_at_S.
           ++ intros [|j] Hj; [lia|]. rewrite opened_at_S. apply Hno. lia.
           ++ by rewrite count_from_cons_S.
           ++ intros [|k] Hk; [lia|]. rewrite count_from_cons_S. apply Hnz. simpl. lia.
        -- right. simpl in Hz, Hnz. split_and!.
           ++ done.
           ++ intros [|j] Hj; [rewrite opened_at_0; congruence|].
              rewrite opened_at_S. apply Hno. lia.
           ++ rewrite slice_0_S, balance_cons. lia.
           ++ intros [|k] Hk.
              ** rewrite slice_0_0, balance_cons. unfold balance. simpl. lia.
              ** rewrite slice_0_S, balance_cons.
                 specialize (Hnz k ltac:(lia)). lia.
    + destruct (IH (S i) st Hst Hr) as (e & He & Hlt & Hcase).
      exists (S e). split; [lia|]. split; [lia|].
      destruct Hcase as [(m & Hm & Hop & Hno & Hz & Hnz) | (Hin' & _)];
        [|congruence].
      left. exists (S m). split_and!.
      * lia.
      * by apply opened_at_S.
      * intros [|j] Hj; [lia|]. rewrite opened_at_S. apply Hno. lia.
      * by rewrite count_from_cons_S.
      * intros [|k] Hk; [lia|]. rewrite count_from_cons_S. apply Hnz. simpl. lia.
Qed.

(** A scan that ran to the end of the file: either no line opened the
    module and [test_end] is what it was; or [test_end] is the last line
    that opened it, and the counter restarted there is never zero
    afterwards. *)
Lemma scan_braces_running (rest : list string) (i : nat) (st : scan_state) :
  stopped st = false →
  stopped (scan_braces rest i st) = false →
  ((∀ j, ¬ opened_at rest j) ∧
   test_end (scan_braces rest i st) = test_end st ∧
   (in_test_module st = true →
    ∀ k, k < length rest → (brace_count st + balance (slice rest 0 k))%Z ≠ 0%Z))
  ∨ (∃ m, opened_at rest m ∧ (∀ j, m < j → ¬ opened_at rest j) ∧
          test_end (scan_braces rest i st) = i + m ∧
          ∀ k, m < k < length rest → count_from rest m k ≠ 0%Z).
Proof.
  revert i st. induction rest as [|line rest IH]; intros i st Hst Hr; simpl in *.
  { left. split_and!; [|done|intros; lia].
    intros j (l & Hl & _). by rewrite lookup_nil in Hl. }
  destruct (opens_module line) eqn:Ho.
  - right.
    destruct (IH (S i) (ScanState 1 i true false) eq_refl Hr)
      as [(Hno & He & Hnz) | (m & Hop & Hno & He & Hnz)].
    + exists 0. split_and!.
      * by apply opened_at_0.
      * intros [|j] Hj; [lia|]. rewrite opened_at_S. apply Hno.
      * rewrite He. simpl. lia.
      * intros [|k] Hk; [lia|]. rewrite count_from_0. apply (Hnz eq_refl). lia.
    + exists (S m). split_and!.
      * by apply opened_at_S.
      * intros [|j] Hj; [lia|]. rewrite opened_at_S. apply Hno. lia.
      * lia.
      * intros [|k] Hk; [lia|]. rewrite count_from_cons_S. apply Hnz. simpl. lia.
  - destruct (in_test_module st) eqn:Hin.
    + destruct (Z.eqb_spec (brace_count st + brace_delta line) 0) as [Hz|Hnz0];
        [simpl in Hr; congruence|].
      destruct (IH (S i) (ScanState (brace_count st + brace_delta line)
                                    (test_end st) true false) eq_refl Hr)
        as [(Hno & He & Hnz) | (m & Hop & Hno & He & Hnz)].
      * left. simpl in He, Hnz. split_and!.
        -- intros [|j]; [rewrite opened_at_0; congruence|].
           rewrite opened_at_S. apply Hno.
        -- done.
        -- intros _ [|k] Hk.
           ++ rewrite slice_0_0, balance_cons. unfold balance. simpl. lia.
           ++ rewrite slice_0_S, balance_cons.
              specialize (Hnz eq_refl k ltac:(lia)). lia.
      * right. exists (S m). split_and!.
        -- by apply opened_at_S.
        -- intros [|j] Hj; [lia|]. rewrite opened_at_S. apply Hno. lia.
        -- lia.
        -- intros [|k] Hk; [lia|]. rewrite count_from_cons_S. apply Hnz. simpl. lia.
    + destruct (IH (S i) st Hst Hr)
        as [(Hno & He & Hnz) | (m & Hop & Hno & He & Hnz)].
      * left. split_and!.
        -- intros [|j]; [rewrite opened_at_0; congruence|].
           rewrite opened_at_S. apply Hno.
        -- done.
        -- congruence.
      * right. exists (S m). split_and!.
        -- by apply opened_at_S.
        -- intros [|j] Hj; [lia|]. rewrite opened_at_S. apply Hno. lia.
        -- lia.
        -- intros [|k] Hk; [lia|]. rewrite count_from_cons_S. apply Hnz. simpl. lia.
Qed.

Lemma scan_from_bounds (lines : list string) (test_start : nat) :
  test_start < length lines →
  test_start ≤ test_end (scan_from lines test_start) < length lines.
Proof.
  intros Hlt. unfold scan_from.
  destruct (scan_braces_test_end (drop test_start lines) test_start
              (ScanState 0 test_start false false)) as [-> | H]; simpl; [lia|].
  rewrite length_drop in H. lia.
Qed.

(** The scan from a start line that left through [break], by line
    numbers of the file. *)
Lemma scan_from_stopped (lines : list string) (test_start : nat) :
  let r := scan_from lines test_start in
  stopped r = true →
  ∃ m, test_start ≤ m < test_end r ∧ opened_at lines m ∧
       (∀ j, m < j ≤ test_end r → ¬ opened_at lines j) ∧
       count_from lines m (test_end r) = 0%Z ∧
       ∀ k, m ≤ k < test_end r → count_from lines m k ≠ 0%Z.
Proof.
  intros r Hstop. subst r. unfold scan_from in *.
  destruct (scan_braces_stopped (drop test_start lines) test_start
              (ScanState 0 test_start false false) eq_refl Hstop)
    as (e & He & Hlen & [(m & Hm & Hop & Hno & Hz & Hnz) | (Hin & _)]);
    [|simpl in Hin; congruence].
  rewrite He. exists (test_start + m). split_and!.
  - lia.
  - lia.
  - by apply opened_at_drop.
  - intros j Hj. replace j with (test_start + (j - test_start)) by lia.
    rewrite <- opened_at_drop. apply Hno. lia.
  - by rewrite <- count_from_drop.
  - intros k Hk. replace k with (test_start + (k - test_start)) by lia.
    rewrite <- count_from_drop. apply Hnz. lia.
Qed.

(** The scan from a start line that ran to the end of the file. *)
Lemma scan_from_running (lines : list string) (test_start : nat) :
  let r := scan_from lines test_start in
  stopped r = false →
  (test_end r = test_start ∧ ∀ j, test_start ≤ j → ¬ opened_at lines j)
  ∨ (test_start ≤ test_end r ∧ opened_at lines (test_end r) ∧
     (∀ j, test_end r < j → ¬ opened_at lines j) ∧
     ∀ k, test_end r < k < length lines →
          count_from lines (test_end r) k ≠ 0%Z).
Proof.
  intros r Hrun. subst r. unfold scan_from in *.
  destruct (scan_braces_running (drop test_start lines) test_start
              (ScanState 0 test_start false false) eq_refl Hrun)
    as [(Hno & He & _) | (m & Hop & Hno & He & Hnz)].
  - left. split; [done|].
    intros j Hj. replace j with (test_start + (j - test_start)) by lia.
    rewrite <- opened_at_drop. apply Hno.
  - right. rewrite He. split_and!.
    + lia.
    + by apply opened_at_drop.
    + intros j Hj. replace j with (test_start + (j - test_start)) by lia.
      rewrite <- opened_at_drop. apply Hno. lia.
    + intros k Hk. replace k with (test_start + (k - test_start)) by lia.
      rewrite <- count_from_drop. apply Hnz. rewrite length_drop. lia.
Qed.

(** C3, as amended: the span never ends before it starts, and when the
    scan stopped on a closing line, the counter of the code (one at the
    last line [m] of the span that holds both ['mod tests'] and an
    opening brace, then the braces of the later lines) is zero at
    [test_end] and non-zero at every line from [m] up to there; when the
    scan ran to the end of the file, [test_end] is the last such line, or
    [test_start] when there is none. *)
Theorem span_balance (lines : list string) (test_start : nat) :
  find_test_start lines lines 0 = Some test_start →
  let r := scan_from lines test_start in
  test_start ≤ test_end r < length lines ∧
  (stopped r = true →
   ∃ m, test_start ≤ m < test_end r ∧ opened_at lines m ∧
        (∀ j, m < j ≤ test_end r → ¬ opened_at lines j) ∧
        count_from lines m (test_end r) = 0%Z ∧
        ∀ k, m ≤ k < test_end r → count_from lines m k ≠ 0%Z) ∧
  (stopped r = false →
   (test_end r = test_start ∧ ∀ j, test_start ≤ j → ¬ opened_at lines j)
   ∨ (test_start ≤ test_end r ∧ opened_at lines (test_end r) ∧
      (∀ j, test_end r < j → ¬ opened_at lines j) ∧
      ∀ k, test_end r < k < length lines →
           count_from lines (test_end r) k ≠ 0%Z)).
Proof.
  intros Hfind r. pose proof (find_test_start_lt _ _ Hfind) as Hlt.
  split; [by apply scan_from_bounds|]. split.
  - apply scan_from_stopped.
  - apply scan_from_running.
Qed.

Lemma span_balance_witness :
  let r := scan_from plain_block 0 in
  0 ≤ test_end r < length plain_block ∧
  (stopped r = true →
   ∃ m, 0 ≤ m < test_end r ∧ opened_at plain_block m ∧
        (∀ j, m < j ≤ test_end r → ¬ opened_at plain_block j) ∧
        count_from plain_block m (test_end r) = 0%Z ∧
        ∀ k, m ≤ k < test_end r → count_from plain_block m k ≠ 0%Z) ∧
  (stopped r = false →
   (test_end r = 0 ∧ ∀ j, 0 ≤ j → ¬ opened_at plain_block j)
   ∨ (0 ≤ test_end r ∧ opened_at plain_block (test_end r) ∧
      (∀ j, test_end r < j → ¬ opened_at plain_block j) ∧
      ∀ k, test_end r < k < length plain_block →
           count_from plain_block (test_end r) k ≠ 0%Z)).
Proof. apply (span_balance plain_block 0). vm_compute. reflexivity. Defined.

(** C3, as stated, fails on the smallest test module: the span is
    lines 0 to 2, and its one-line prefix, the attribute line, has
    balance zero. *)
Lemma balance_invariant_fails :
  find_test_start plain_block plain_block 0 = Some 0 ∧
  test_end (scan_from plain_block 0) = 2 ∧
  ¬ balance_invariant plain_block 0 2.
Proof.
  split; [by vm_compute|]. split; [by vm_compute|].
  intros (_ & _ & _ & H). specialize (H 0 ltac:(lia)).
  vm_compute in H. discriminate.
Qed.

(** The counter of the code dips below zero inside a span: no prefix of
    the span is guaranteed a non-negative balance. *)
Example dipping_block_span :
  find_test_start dipping_block dipping_block 0 = Some 0 ∧
  scan_from dipping_block 0 = ScanState 0 3 true true ∧
  count_from dipping_block 1 2 = (-1)%Z.
Proof. by vm_compute. Qed.

(** The braces of a span need not sum to zero. *)
Example double_open_span :
  find_test_start double_open double_open 0 = Some 0 ∧
  scan_from double_open 0 = ScanState 0 2 true true ∧
  balance (slice double_open 0 2) = 1%Z.
Proof. by vm_compute. Qed.

(** ** The split *)

Lemma length_slice (lines : list string) (a b : nat) :
  a ≤ b < length lines → length (slice lines a b) = S b - a.
Proof. intros H. unfold slice. rewrite length_take, length_drop. lia. Qed.

(** What [extract_test_module] returns once a start line is found. *)
Lemma extract_lines_found (lines block rem : list string) :
  extract_lines lines = (Some block, rem) →
  ∃ test_start,
    find_test_start lines lines 0 = Some test_start ∧
    let test_end := test_end (scan_from lines test_start) in
    test_start ≤ test_end < length lines ∧
    block = slice lines test_start test_end ∧
    rem = strip_trailing_blank (take test_start lines ++ drop (S test_end) lines).
Proof.
  unfold extract_lines. destruct (find_test_start lines lines 0) as [s|] eqn:Hs;
    [|congruence].
  intros [= <- <-]. exists s. split; [done|]. simpl.
  split; [|done]. apply scan_from_bounds. by eapply find_test_start_lt.
Qed.

(** C2, as amended: block, remainder and the blank lines popped off the
    remainder's tail add up to the lines of the file; the block is
    [lines[test_start..test_end]] and the remainder with the popped
    lines put back is what surrounds it. *)
Theorem extract_line_count (lines block rem : list string) :
  extract_lines lines = (Some block, rem) →
  ∃ test_start test_end blanks,
    block = slice lines test_start test_end ∧
    rem ++ blanks = take test_start lines ++ drop (S test_end) lines ∧
    Forall (λ l, is_blank l = true) blanks ∧
    (∀ l, last rem = Some l → is_blank l = false) ∧
    length block + length rem + length blanks = length lines.
Proof.
  intros H. apply extract_lines_found in H as (s & Hs & Hb & -> & ->).
  set (e := test_end (scan_from lines s)) in *.
  destruct (strip_trailing_blank_spec (take s lines ++ drop (S e) lines))
    as (blanks & Heq & Hall & Hlast).
  exists s, e, blanks. split_and!; [done|done|done|done|].
  rewrite <- Nat.add_assoc, <- length_app, <- Heq.
  rewrite length_slice by done.
  rewrite length_app, length_take, length_drop. lia.
Qed.

Lemma extract_line_count_witness :
  ∃ test_start test_end blanks,
    [ln "#[cfg(test)]"; ln "mod tests {"; ln "}"] = slice blank_tail test_start test_end ∧
    [] ++ blanks = take test_start blank_tail ++ drop (S test_end) blank_tail ∧
    Forall (λ l, is_blank l = true) blanks ∧
    (∀ l, last ([] : list string) = Some l → is_blank l = false) ∧
    length [ln "#[cfg(test)]"; ln "mod tests {"; ln "}"] + length ([] : list string)
      + length blanks = length blank_tail.
Proof. apply (extract_line_count blank_tail). vm_compute. reflexivity. Defined.

(** C2, as stated, fails when a blank line follows the block: three
    lines are extracted, none remains, the file had four. *)
Lemma line_count_fails :
  ∃ block rem,
    extract_lines blank_tail = (Some block, rem) ∧
    length block + length rem ≠ length blank_tail.
Proof.
  exists [ln "#[cfg(test)]"; ln "mod tests {"; ln "}"], [].
  split; [by vm_compute|]. simpl. lia.
Qed.

(** ** The matcher against its description *)

Lemma no_brace_no_open (l : string) :
  contains "{" l = false → opens_module l = false.
Proof. unfold opens_module. intros ->. by rewrite andb_false_r. Qed.

Lemma opens_has_brace (l : string) :
  opens_module l = true → contains "{" l = true.
Proof. unfold opens_module. by intros [_ ?]%andb_true_iff. Qed.

(** Inside the module and with no further declaration line ahead, the
    loop of the code and the described matcher move in step. *)
Lemma scan_inside_agrees (post : list string) (i : nat) (b : Z) (e : nat) :
  Forall (λ l, opens_module l = false) post →
  let r := scan_braces post i (ScanState b e true false) in
  match spec_matcher post i b true with
  | Some e' => stopped r = true ∧ test_end r = e' ∧ brace_count r = 0%Z
  | None => stopped r = false ∧ test_end r = e
  end.
Proof.
  revert i b. induction post as [|l post IH]; intros i b Hall; simpl; [done|].
  apply Forall_cons in Hall as [-> Hall].
  destruct (Z.eqb_spec (b + brace_delta l) 0) as [Hz|Hnz]; [done|].
  by apply IH.
Qed.

(** C6, as amended: when the first line from the start line on that
    holds an opening brace also holds ['mod tests'], and no later line
    holds both, the code ends the span where the described matcher
    does, with its counter at zero; when that matcher finds no end, the
    code keeps the declaration line as the end. *)
Theorem matcher_agrees (lines : list string) (test_start : nat)
    (pre post : list string) (d : string) :
  drop test_start lines = pre ++ d :: post →
  Forall (λ l, contains "{" l = false) pre →
  opens_module d = true →
  Forall (λ l, opens_module l = false) post →
  let r := scan_from lines test_start in
  match spec_end_line lines test_start with
  | Some e => stopped r = true ∧ test_end r = e ∧ brace_count r = 0%Z
  | None => stopped r = false ∧ test_end r = test_start + length pre
  end.
Proof.
  intros Hdrop Hpre Hd Hpost r. subst r.
  unfold scan_from, spec_end_line. rewrite Hdrop.
  assert (∀ i st,
    in_test_module st = false →
    scan_braces (pre ++ d :: post) i st
      = scan_braces post (S (i + length pre)) (ScanState 1 (i + length pre) true false)
    ∧ spec_matcher (pre ++ d :: post) i 0 false
      = spec_matcher post (S (i + length pre)) 1 true) as Hskip.
  { clear Hdrop. induction pre as [|l pre IH]; intros i st Hin; simpl.
    - rewrite Hd, (opens_has_brace _ Hd), Nat.add_0_r. done.
    - apply Forall_cons in Hpre as [Hl Hpre].
      rewrite (no_brace_no_open _ Hl), Hin, Hl.
      destruct (IH Hpre (S i) st Hin) as [-> ->].
      by replace (S i + length pre) with (i + S (length pre)) by lia. }
  destruct (Hskip test_start (ScanState 0 test_start false false) eq_refl)
    as [-> ->].
  by apply scan_inside_agrees.
Qed.

Lemma matcher_agrees_witness :
  let r := scan_from plain_block 0 in
  match spec_end_line plain_block 0 with
  | Some e => stopped r = true ∧ test_end r = e ∧ brace_count r = 0%Z
  | None => stopped r = false ∧ test_end r = 0 + length [ln "#[cfg(test)]"]
  end.
Proof.
  apply (matcher_agrees plain_block 0 [ln "#[cfg(test)]"] [ln "}"] (ln "mod tests {")).
  - reflexivity.
  - repeat constructor.
  - by vm_compute.
  - repeat constructor.
Defined.

(** C6, as stated, fails when the opening brace stands on the line
    after ['mod tests']: the described matcher ends the span at line 3,
    the code never enters the module and keeps the start line as end. *)
Lemma matcher_differs :
  find_test_start allman allman 0 = Some 0 ∧
  spec_end_line allman 0 = Some 3 ∧
  test_end (scan_from allman 0) = 0 ∧
  spec_end_line allman 0 ≠ Some (test_end (scan_from allman 0)).
Proof. by vm_compute. Qed.

(** A later line holding both ['mod tests'] and an opening brace sets
    the counter of the code back to one instead of adding to it. *)
Example reopening_resets :
  let lines := [ln "#[cfg(test)]"; ln "mod tests {"; ln "    mod tests {";
                ln "    }"; ln "}"] in
  find_test_start lines lines 0 = Some 0 ∧
  scan_from lines 0 = ScanState 0 3 true true ∧
  spec_end_line lines 0 = Some 4.
Proof. by vm_compute. Qed.

(** ** Destination paths *)

Lemma rfind_dot_rs (b : string) : rfind "." (b +:+ ".rs") = Some (String.length b).
Proof.
  induction b as [|a b IH]; [done|].
  rewrite append_cons. simpl. by rewrite IH.
Qed.

Lemma slice_to_append (b t : string) : slice_to (String.length b) (b +:+ t) = b.
Proof.
  induction b as [|a b IH].
  - by destruct t.
  - rewrite append_cons. simpl. by rewrite IH.
Qed.

Lemma length_nonempty (b : string) : b ≠ "" → 0 < String.length b.
Proof. destruct b; [done|simpl; lia]. Qed.

(** The stem of a name [b.rs] with a non-empty [b] is [b]. *)
Lemma stem_rs (rel : path) (b : string) :
  last rel = Some (b +:+ ".rs") → b ≠ "" → stem rel = b.
Proof.
  intros Hlast Hb. unfold stem, name. rewrite Hlast. simpl.
  rewrite rfind_dot_rs, length_append. simpl String.length.
  pose proof (length_nonempty b Hb).
  rewrite !(proj2 (Z.ltb_lt _ _)) by lia.
  simpl. apply slice_to_append.
Qed.

Lemma append_inv_tail (s1 s2 t : string) : s1 +:+ t = s2 +:+ t → s1 = s2.
Proof.
  revert s2. induction s1 as [|a s1 IH]; intros [|b s2] H.
  - done.
  - apply (f_equal String.length) in H.
    rewrite append_cons, append_nil_l in H. simpl in H.
    rewrite length_append in H. lia.
  - apply (f_equal String.length) in H.
    rewrite append_cons, append_nil_l in H. simpl in H.
    rewrite length_append in H. lia.
  - rewrite !append_cons in H. injection H as -> H. f_equal. by apply IH.
Qed.

(** C10, as amended: for source files whose name has a non-empty part
    before [.rs], the destination is the mirrored directory with
    [_tests.rs] put after that part, and two such sources with the same
    destination are the same file. *)
Theorem destination_injective (test_dir rel1 rel2 : path) (b1 b2 : string) :
  last rel1 = Some (b1 +:+ ".rs") → b1 ≠ "" →
  last rel2 = Some (b2 +:+ ".rs") → b2 ≠ "" →
  test_file_path test_dir rel1 = test_dir ++ parent rel1 ++ [b1 +:+ "_tests.rs"] ∧
  (test_file_path test_dir rel1 = test_file_path test_dir rel2 → rel1 = rel2).
Proof.
  intros H1 Hb1 H2 Hb2. unfold test_file_path.
  rewrite (stem_rs rel1 b1), (stem_rs rel2 b2) by done.
  split; [done|]. intros Heq.
  apply app_inv_head in Heq. apply app_inj_tail in Heq as [Hp Hn].
  apply append_inv_tail in Hn as ->.
  apply last_Some in H1 as [l1 ->]. apply last_Some in H2 as [l2 ->].
  unfold parent in Hp. rewrite !removelast_last in Hp. by subst.
Qed.

Lemma destination_injective_witness :
  test_file_path tests_dir ["a"; "mod.rs"] = tests_dir ++ parent ["a"; "mod.rs"] ++ ["mod" +:+ "_tests.rs"] ∧
  (test_file_path tests_dir ["a"; "mod.rs"] = test_file_path tests_dir ["a.rs"] →
   ["a"; "mod.rs"] = ["a.rs"]).
Proof.
  apply (destination_injective tests_dir ["a"; "mod.rs"] ["a.rs"] "mod" "a").
  - reflexivity.
  - by vm_compute.
  - reflexivity.
  - by vm_compute.
Defined.

(** C10, as stated, fails for the two names [.rs] and [.rs.rs] in one
    directory: the scan accepts both, and both resolve to
    [.rs_tests.rs]. *)
Lemma destination_collision :
  endswith ".rs" (name ["x"; ".rs"]) = true ∧
  endswith ".rs" (name ["x"; ".rs.rs"]) = true ∧
  ["x"; ".rs"] ≠ ["x"; ".rs.rs"] ∧
  test_file_path tests_dir ["x"; ".rs"] = test_file_path tests_dir ["x"; ".rs.rs"].
Proof. by vm_compute. Qed.

(** The pair [a/mod.rs] and [a.rs] shares a module path, not a
    destination. *)
Example mod_rs_paths :
  module_path ["a"; "mod.rs"] = "a" ∧ module_path ["a.rs"] = "a" ∧
  test_file_path tests_dir ["a"; "mod.rs"] = ["tests"; "a"; "mod_tests.rs"] ∧
  test_file_path tests_dir ["a.rs"] = ["tests"; "a_tests.rs"].
Proof. by vm_compute. Qed.

(** ** Indentation of the fragments *)

Lemma startswith_unit (l : string) :
  startswith "    " l = true → l = "    " +:+ slice_from 4 l.
Proof.
  destruct l as [|a1 [|a2 [|a3 [|a4 l]]]]; simpl; try done;
    repeat case_decide; try done.
  by subst.
Qed.

Lemma strip_unit (l : string) : strip ("    " +:+ l) = strip l.
Proof. reflexivity. Qed.

(** Stripping the unit off a line and giving it back restores the line,
    when the line is blank or begins with the unit. *)
Lemma reindent_clean (l : string) :
  is_blank l = true ∨ startswith "    " l = true →
  reindent_line (clean_line l) = l.
Proof.
  unfold is_blank, reindent_line, clean_line.
  destruct (truthy (strip l)) eqn:Ht.
  - intros [?|Hs]; [done|]. rewrite Hs.
    apply startswith_unit in Hs.
    rewrite Hs in Ht. rewrite strip_unit in Ht. by rewrite Ht.
  - intros _. by rewrite Ht.
Qed.

Lemma map_fixed {A} (f : A → A) (l : list A) :
  (∀ x, x ∈ l → f x = x) → map f l = l.
Proof.
  induction l as [|x l IH]; intros H; simpl; [done|].
  rewrite H by apply list_elem_of_here.
  rewrite IH; [done|]. intros y Hy. apply H. by apply list_elem_of_further.
Qed.

(** The block put back between what precedes and what follows it. *)
Lemma block_reinserted (lines : list string) (s e : nat) :
  s ≤ e < length lines →
  take s (take s lines ++ drop (S e) lines) ++ slice lines s e
  ++ drop s (take s lines ++ drop (S e) lines) = lines.
Proof.
  intros H.
  rewrite take_app_length' by (rewrite length_take; lia).
  rewrite drop_app_length' by (rewrite length_take; lia).
  unfold slice.
  replace (drop (S e) lines) with (drop (S e - s) (drop s lines))
    by (rewrite drop_drop; f_equal; lia).
  by rewrite take_drop, take_drop.
Qed.

(** C5, as amended: when every line of a fragment that is not blank
    begins with the four-space unit, giving the unit back to the
    non-blank lines of the test file's fragments restores the fragments
    of the block; and the block, put back at its start line into the
    remainder with its popped blank lines, restores the lines of the
    file. *)
Theorem fragments_round_trip (lines block rem : list string) :
  extract_lines lines = (Some block, rem) →
  (∀ fn l, fn ∈ collect_test_functions block → l ∈ fn →
           is_blank l = false → startswith "    " l = true) →
  map (map reindent_line) (destination_fragments block)
    = collect_test_functions block ∧
  ∃ test_start blanks,
    find_test_start lines lines 0 = Some test_start ∧
    Forall (λ l, is_blank l = true) blanks ∧
    take test_start (rem ++ blanks) ++ block ++ drop test_start (rem ++ blanks)
      = lines.
Proof.
  intros Hex Hind. split.
  - unfold destination_fragments. rewrite map_map.
    apply map_fixed. intros fn Hfn. rewrite map_map.
    apply map_fixed. intros l Hl. apply reindent_clean.
    destruct (is_blank l) eqn:Hb; [by left|right]. by eapply Hind.
  - apply extract_lines_found in Hex as (s & Hs & Hb & -> & ->).
    set (e := test_end (scan_from lines s)) in *.
    destruct (strip_trailing_blank_spec (take s lines ++ drop (S e) lines))
      as (blanks & Heq & Hall & _).
    exists s, blanks. split_and!; [done|done|].
    rewrite <- Heq. by apply block_reinserted.
Qed.

Lemma fragments_round_trip_witness :
  map (map reindent_line)
      (destination_fragments
         [ln "#[cfg(test)]"; ln "mod tests {"; ln "    use super::*;";
          ln "    #[test]"; ln "    fn t() {"; ln "        f();"; ln "    }"; ln "}"])
    = collect_test_functions
         [ln "#[cfg(test)]"; ln "mod tests {"; ln "    use super::*;";
          ln "    #[test]"; ln "    fn t() {"; ln "        f();"; ln "    }"; ln "}"] ∧
  ∃ test_start blanks,
    find_test_start lib_lines lib_lines 0 = Some test_start ∧
    Forall (λ l, is_blank l = true) blanks ∧
    take test_start ([ln "pub fn f() {}"] ++ blanks)
      ++ [ln "#[cfg(test)]"; ln "mod tests {"; ln "    use super::*;";
          ln "    #[test]"; ln "    fn t() {"; ln "        f();"; ln "    }"; ln "}"]
      ++ drop test_start ([ln "pub fn f() {}"] ++ blanks)
      = lib_lines.
Proof.
  apply (fragments_round_trip lib_lines).
  - vm_compute. reflexivity.
  - intros fn l Hfn. vm_compute in Hfn.
    apply list_elem_of_singleton in Hfn as ->.
    intros Hl _. repeat (apply elem_of_cons in Hl as [-> | Hl]; [by vm_compute|]).
    by apply elem_of_nil in Hl.
Defined.

(** C5, as stated, fails on a file with one test function: the test
    file's fragment with the unit given back is four lines, put into
    the one remaining line it makes five, and the file had nine. *)
Lemma round_trip_fails :
  ∃ block rem,
    find_test_start lib_lines lib_lines 0 = Some 1 ∧
    extract_lines lib_lines = (Some block, rem) ∧
    joined (round_trip 1 (destination_fragments block) rem) ≠ lib_rs.
Proof.
  eexists _, _. split; [by vm_compute|]. split; [by vm_compute|].
  by vm_compute.
Qed.

(** ** One file of the run *)

Local Ltac io_simpl := cbn [files trace fst snd].

Local Ltac io_unfold :=
  unfold read_text, write_lines, make_dirs, print, raise;
  unfold mbind, io_bind, mret, io_ret; io_simpl.

Local Ltac trace_norm :=
  unfold logged, moving, moved; io_simpl; rewrite <- ?app_assoc; cbn [app].

Lemma relative_to_src_app (rel : path) : relative_to_src (src_dir ++ rel) = Some rel.
Proof. reflexivity. Qed.

(** The loop body of [main] on a file below [src], case by case. *)
Lemma process_file_eq (w : world) (rel : path) (σ : state) :
  let p := src_dir ++ rel in
  let dest := test_file_path tests_dir rel in
  process_file w p σ =
  if decide (p ∈ unreadable w)
  then (logged σ [Printed (Processing p)], Raised (CannotRead p))
  else
    match files σ !! p with
    | None => (logged σ [Printed (Processing p)], Raised (CannotRead p))
    | Some content =>
        match found (extract_lines (readlines content)).1 with
        | None =>
            (logged σ [Printed (Processing p); Printed NoTestModuleFound],
             Done false)
        | Some block =>
            if decide (parent dest ∈ unmakeable w)
            then (logged σ [Printed (Processing p)], Raised (CannotMakeDirs (parent dest)))
            else if decide (dest ∈ unwritable w)
            then (logged σ (moving p dest), Raised (CannotWrite dest))
            else
              match cut_short w !! dest with
              | Some n =>
                  (State (<[dest := slice_to n (joined (test_file_content rel block))]>
                            (files σ))
                         (trace σ ++ moving p dest ++ [Wrote dest]),
                   Raised (WriteFailed dest))
              | None =>
                  let σ1 := State (<[dest := joined (test_file_content rel block)]>
                                     (files σ))
                                  (trace σ ++ moving p dest ++ moved p dest) in
                  if decide (p ∈ unwritable w)
                  then (σ1, Raised (CannotWrite p))
                  else
                    match cut_short w !! p with
                    | Some n =>
                        (State (<[p := slice_to n
                                         (joined (extract_lines (readlines content)).2)]>
                                  (files σ1))
                               (trace σ1 ++ [Wrote p]),
                         Raised (WriteFailed p))
                    | None =>
                        (State (<[p := joined (extract_lines (readlines content)).2]>
                                  (files σ1))
                               (trace σ1 ++ [Wrote p; Printed RemovedTestModule]),
                         Done true)
                    end
              end
        end
    end.
Proof.
  intros p dest. unfold process_file, extract_test_module. io_unfold.
  destruct (decide (p ∈ unreadable w)); [done|].
  destruct (files σ !! p) as [content|]; [|done].
  destruct (extract_lines (readlines content)) as [tm rem]. io_simpl.
  destruct (found tm) as [block|]; [|by trace_norm].
  unfold create_test_file. subst p. rewrite relative_to_src_app.
  io_unfold. fold dest.
  destruct (decide (parent dest ∈ unmakeable w)); [by trace_norm|]. io_simpl.
  destruct (decide (dest ∈ unwritable w)); [by trace_norm|].
  destruct (cut_short w !! dest); [by trace_norm|]. io_simpl.
  destruct (decide (src_dir ++ rel ∈ unwritable w)); [by trace_norm|].
  destruct (cut_short w !! (src_dir ++ rel)); by trace_norm.
Qed.

Lemma found_extract_lines (lines : list string) :
  found (extract_lines lines).1 = (extract_lines lines).1.
Proof.
  destruct (extract_lines lines) as [[block|] rem] eqn:H; [|done].
  apply extract_lines_found in H as (s & _ & Hb & -> & _).
  pose proof (length_slice lines s _ Hb) as Hlen. simpl.
  destruct (slice lines s (test_end (scan_from lines s))); [simpl in Hlen; lia|done].
Qed.

Lemma src_not_tests (rel rel' : path) :
  src_dir ++ rel ≠ test_file_path tests_dir rel'.
Proof. unfold test_file_path. simpl. by intros [= ?]. Qed.


(** ** What reaches the two files *)










(** What the test file of [lib_rs] holds: the header and the one test
    function; the attribute line, the wrapper, the import and the
    closing brace are gone. *)
Example lib_test_file :
  test_file_content ["lib.rs"] lib_block =
  header ["lib.rs"] ++ [ln "#[test]"; ln "fn t() {"; ln "    f();"; ln "}"; nl].
Proof. by vm_compute. Qed.

(** ** Unterminated blocks *)




(** ** The scan of the tree *)

Lemma find_in_inv (w : world) (walk : list path) (acc : list path)
    (σ σ' : state) (r : outcome (list path)) :
  find_in w walk acc σ = (σ', r) →
  σ' = σ ∧
  match r with
  | Done test_files =>
      Forall (openable w (files σ)) walk ∧
      test_files = acc ++ omap (listed (files σ)) walk
  | Raised e =>
      ∃ rel, rel ∈ walk ∧ endswith ".rs" (name rel) = true ∧
             e = CannotRead (src_dir ++ rel) ∧
             (src_dir ++ rel ∈ unreadable w ∨ files σ !! (src_dir ++ rel) = None)
  end.
Proof.
  revert acc. induction walk as [|rel walk IH]; intros acc; cbn [find_in omap list_omap].
  { unfold mret, io_ret. intros [= <- <-]. split; [done|].
    split; [constructor|by rewrite app_nil_r]. }
  unfold listed at 1.
  destruct (endswith ".rs" (name rel)) eqn:Hrs.
  - io_unfold.
    destruct (decide (src_dir ++ rel ∈ unreadable w)) as [Hu|Hu].
    { intros [= <- <-]. split; [done|]. exists rel.
      split_and!; [apply list_elem_of_here|done|done|by left]. }
    destruct (files σ !! (src_dir ++ rel)) as [content|] eqn:Hc.
    2:{ intros [= <- <-]. split; [done|]. exists rel.
        split_and!; [apply list_elem_of_here|done|done|by right]. }
    destruct (contains cfg_test content && contains mod_tests content).
    + intros H. apply IH in H as [-> H]. split; [done|].
      destruct r as [tf | e].
      * destruct H as [Hall ->]. split.
        -- constructor; [|done]. intros _. by rewrite Hc.
        -- by rewrite <- app_assoc.
      * destruct H as (rel' & ? & ? & ? & ?). exists rel'.
        split_and!; [by apply list_elem_of_further|done..].
    + intros H. apply IH in H as [-> H]. split; [done|].
      destruct r as [tf | e].
      * destruct H as [Hall ->]. split; [|done].
        constructor; [|done]. intros _. by rewrite Hc.
      * destruct H as (rel' & ? & ? & ? & ?). exists rel'.
        split_and!; [by apply list_elem_of_further|done..].
  - intros H. apply IH in H as [-> H]. split; [done|].
    destruct r as [tf | e].
    + destruct H as [Hall ->]. split; [|done]. constructor; [|done].
      unfold openable. congruence.
    + destruct H as (rel' & ? & ? & ? & ?). exists rel'.
      split_and!; [by apply list_elem_of_further|done..].
Qed.

Lemma find_in_done (w : world) (walk : list path) (acc : list path) (σ : state) :
  Forall (openable w (files σ)) walk →
  find_in w walk acc σ = (σ, Done (acc ++ omap (listed (files σ)) walk)).
Proof.
  intros Hall. destruct (find_in w walk acc σ) as [σ' r] eqn:H.
  apply find_in_inv in H as [-> H]. destruct r as [tf|e].
  - by destruct H as [_ ->].
  - destruct H as (rel & Hin & Hrs & _ & Hbad).
    rewrite Forall_forall in Hall. destruct (Hall rel Hin Hrs) as [Hr Hs].
    destruct Hs as [c Hc]. destruct Hbad; [done|congruence].
Qed.

Lemma elem_of_listed (fs : gmap path string) (walk : list path) (p : path) :
  p ∈ omap (listed fs) walk ↔
  ∃ rel content, rel ∈ walk ∧ p = src_dir ++ rel ∧
    endswith ".rs" (name rel) = true ∧ fs !! p = Some content ∧
    contains cfg_test content && contains mod_tests content = true.
Proof.
  rewrite list_elem_of_omap. unfold listed. split.
  - intros (rel & Hin & H). destruct (endswith ".rs" (name rel)) eqn:Hrs; [|done].
    destruct (fs !! (src_dir ++ rel)) as [c|] eqn:Hc; [|done].
    destruct (contains cfg_test c && contains mod_tests c) eqn:Hm; [|done].
    injection H as <-. by exists rel, c.
  - intros (rel & c & Hin & -> & Hrs & Hc & Hm). exists rel. split; [done|].
    by rewrite Hrs, Hc, Hm.
Qed.

(** ** Unreadable files *)




(** ** The order of the writes *)








Lemma listed_under_src (fs : gmap path string) (walk : list path) :
  Forall (λ p, ∃ rel, p = src_dir ++ rel) (omap (listed fs) walk).
Proof.
  apply Forall_forall. intros p Hp.
  apply elem_of_listed in Hp as (rel & _ & _ & -> & _). by exists rel.
Qed.



(** X20: when the directory of the test file cannot be made, or the
    test file cannot be opened, or its write fails on the way, the
    file's step does not succeed and the source is not touched.  No
    file changes at all, unless the write failed after the test file
    was opened: then the test file, and no other, is left with the
    beginning of its text. *)
Theorem failed_destination_keeps_source (w : world) (σ : state) (rel : path) :
  let p := src_dir ++ rel in
  let dest := test_file_path tests_dir rel in
  parent dest ∈ unmakeable w ∨ dest ∈ unwritable w ∨ is_Some (cut_short w !! dest) →
  ∃ σ' e, process_file w p σ = (σ', e) ∧ e ≠ Done true ∧
    files σ' !! p = files σ !! p ∧
    (files σ' = files σ
     ∨ ∃ n content block,
         cut_short w !! dest = Some n ∧
         (parent dest ∉ unmakeable w) ∧ (dest ∉ unwritable w) ∧
         files σ !! p = Some content ∧
         (extract_lines (readlines content)).1 = Some block ∧
         e = Raised (WriteFailed dest) ∧
         files σ' = <[dest := slice_to n (joined (test_file_content rel block))]>
                      (files σ)).
Proof.
  intros p dest Hbad.
  destruct (process_file w p σ) as [σ' e] eqn:Hp. exists σ', e.
  split; [done|]. revert Hp. unfold p at 1. rewrite process_file_eq. cbv zeta.
  fold p dest.
  destruct (decide (p ∈ unreadable w));
    [intros [= <- <-]; by split_and!; [..|left]|].
  destruct (files σ !! p) as [content|] eqn:Hc;
    [|intros [= <- <-]; by split_and!; [..|left]].
  destruct (found _) as [block|] eqn:Hf;
    [|intros [= <- <-]; by split_and!; [..|left]].
  rewrite found_extract_lines in Hf.
  destruct (decide (parent dest ∈ unmakeable w));
    [intros [= <- <-]; by split_and!; [..|left]|].
  destruct (decide (dest ∈ unwritable w));
    [intros [= <- <-]; by split_and!; [..|left]|].
  destruct (cut_short w !! dest) as [cut|] eqn:Hcut.
  - intros [= <- <-]. split_and!; [done| |].
    + cbn [files]. rewrite lookup_insert_ne; [done|]. symmetry. apply src_not_tests.
    + right. by exists cut, content, block.
  - destruct Hbad as [?|[?|[? ?]]]; done.
Qed.

(** ** Lines and their text *)

Lemma complete_cons (c : ascii) (l : string) :
  c ≠ "010"%char → complete_line l → complete_line (String c l).
Proof.
  intros Hc (b & -> & Hb). exists (String c b). split; [done|].
  simpl. by rewrite decide_False.
Qed.

Lemma partial_cons (c : ascii) (l : string) :
  c ≠ "010"%char → count "010" l = 0 → partial_line (String c l).
Proof. intros Hc Hl. split; [done|]. simpl. by rewrite decide_False. Qed.

Lemma readlines_well_split (s : string) : well_split (readlines s).
Proof.
  induction s as [|c s IH]; simpl; [done|].
  assert (complete_line (String "010" "")) as Hnl by (by exists "").
  destruct (decide (c = "010"%char)) as [->|Hc].
  - destruct (readlines s); [by left|done].
  - destruct (readlines s) as [|l [|l' ls]].
    + right. by apply partial_cons.
    + destruct IH as [Hl | [_ Hl]].
      * left. by apply complete_cons.
      * right. by apply partial_cons.
    + destruct IH as [Hl IH]. split; [by apply complete_cons|done].
Qed.

Lemma readlines_complete (b rest : string) :
  count "010" b = 0 → readlines ((b +:+ nl) +:+ rest) = (b +:+ nl) :: readlines rest.
Proof.
  induction b as [|c b IH]; intros Hb.
  - reflexivity.
  - simpl in Hb. destruct (decide (c = "010"%char)) as [->|Hc]; [done|].
    rewrite !append_cons. simpl. rewrite decide_False by done.
    by rewrite IH.
Qed.

Lemma readlines_partial (l : string) :
  partial_line l → readlines l = [l].
Proof.
  intros [Hne Hl]. induction l as [|c l IH]; [done|].
  simpl in Hl. destruct (decide (c = "010"%char)) as [->|Hc]; [done|].
  simpl. rewrite decide_False by done.
  destruct l as [|c' l]; [done|]. by rewrite IH.
Qed.

(** Writing well-split lines and reading them back gives the lines. *)
Lemma readlines_joined (ls : list string) :
  well_split ls → readlines (joined ls) = ls.
Proof.
  induction ls as [|l ls IH]; [done|].
  intros H. cbn [joined].
  destruct ls as [|l' ls].
  - cbn [joined]. rewrite append_nil_r. destruct H as [(b & -> & Hb) | Hp].
    + rewrite <- (append_nil_r (b +:+ nl)) at 1. by rewrite readlines_complete.
    + by apply readlines_partial.
  - destruct H as [(b & -> & Hb) H]. rewrite readlines_complete by done.
    by rewrite IH.
Qed.

Lemma well_split_tail (l : string) (ls : list string) :
  well_split (l :: ls) → well_split ls.
Proof. destruct ls; [done|]. by intros [_ ?]. Qed.

Lemma well_split_drop (n : nat) (ls : list string) :
  well_split ls → well_split (drop n ls).
Proof.
  revert ls. induction n as [|n IH]; intros ls H; [done|].
  destruct ls as [|l ls]; [done|]. apply IH. by eapply well_split_tail.
Qed.

Lemma well_split_prefix (xs ys : list string) :
  well_split (xs ++ ys) → well_split xs.
Proof.
  induction xs as [|x xs IH]; [done|].
  destruct xs as [|x' xs].
  - destruct ys; [done|]. intros [? _]. by left.
  - intros [? H]. split; [done|]. by apply IH.
Qed.

Lemma well_split_take_complete (n : nat) (ls : list string) :
  well_split ls → n < length ls → Forall complete_line (take n ls).
Proof.
  revert ls. induction n as [|n IH]; intros ls H Hn; [constructor|].
  destruct ls as [|l [|l' ls]]; simpl in Hn; [lia|lia|].
  destruct H as [Hl H]. constructor; [done|].
  apply IH; [done|simpl; lia].
Qed.

Lemma well_split_app (xs ys : list string) :
  Forall complete_line xs → well_split ys → well_split (xs ++ ys).
Proof.
  induction 1 as [|x xs Hx Hxs IH]; intros Hys; [done|].
  specialize (IH Hys). simpl. destruct (xs ++ ys); [by left|done].
Qed.

(** The lines around a span of well-split lines are well split. *)
Lemma well_split_around (lines : list string) (s e : nat) :
  well_split lines → s ≤ e < length lines →
  well_split (take s lines ++ drop (S e) lines).
Proof.
  intros H Hse. apply well_split_app.
  - apply well_split_take_complete; [done|lia].
  - by apply well_split_drop.
Qed.

(** ** A second run *)

Lemma find_test_start_none (lines rest : list string) (i : nat) :
  Forall (λ l, contains cfg_test l = false) rest →
  find_test_start lines rest i = None.
Proof.
  intros H. revert i. induction H as [|l rest Hl _ IH]; intros i; simpl; [done|].
  by rewrite Hl.
Qed.

(** Once the block of a file with one marker line is cut out, what is
    written back holds no block. *)
Lemma extract_settles (lines block rem : list string) :
  well_split lines → single_marker lines →
  extract_lines lines = (Some block, rem) →
  settled (joined rem).
Proof.
  intros Hwf Hone Hex.
  apply extract_lines_found in Hex as (s & Hs & Hse & _ & Hrem).
  set (e := test_end (scan_from lines s)) in *.
  destruct (strip_trailing_blank_spec (take s lines ++ drop (S e) lines))
    as (blanks & Heq & _). rewrite <- Hrem in Heq.
  assert (well_split rem) as Hwf'.
  { apply (well_split_prefix rem blanks). rewrite <- Heq.
    by apply well_split_around. }
  unfold settled. rewrite readlines_joined by done.
  unfold extract_lines. rewrite find_test_start_none; [done|].
  apply Forall_forall. intros l Hl.
  destruct (contains cfg_test l) eqn:Hm; [exfalso|done].
  apply find_test_start_spec in Hs as (_ & (l0 & Hl0 & Hm0) & _).
  rewrite Nat.sub_0_r in Hl0.
  assert (l ∈ take s lines ++ drop (S e) lines) as Hin.
  { rewrite Heq. apply elem_of_app. by left. }
  apply elem_of_app in Hin as [Hin | Hin].
  - apply elem_of_take in Hin as (i & Hi & Hlt).
    specialize (Hone i s l l0 Hi Hl0 Hm Hm0). lia.
  - apply list_elem_of_lookup in Hin as (i & Hi). rewrite lookup_drop in Hi.
    specialize (Hone (S e + i) s l l0 Hi Hl0 Hm Hm0). lia.
Qed.

(** The step of a file that ends well: the tree stays tidy, the file
    is settled afterwards, the other source files keep their content
    and no file disappears. *)
Lemma process_file_settles (w : world) (rel : path) (σ σ' : state) (b : bool) :
  tidy (files σ) →
  process_file w (src_dir ++ rel) σ = (σ', Done b) →
  tidy (files σ') ∧
  (∀ c, files σ' !! (src_dir ++ rel) = Some c → settled c) ∧
  (∀ rel', rel' ≠ rel →
           files σ' !! (src_dir ++ rel') = files σ !! (src_dir ++ rel')) ∧
  (∀ q, is_Some (files σ !! q) → is_Some (files σ' !! q)).
Proof.
  intros Htidy. rewrite process_file_eq. cbv zeta.
  set (p := src_dir ++ rel). set (dest := test_file_path tests_dir rel).
  destruct (decide (p ∈ unreadable w)); [done|].
  destruct (files σ !! p) as [content|] eqn:Hc; [|done].
  rewrite found_extract_lines.
  destruct (extract_lines (readlines content)) as [[block|] rem] eqn:Hex;
    cbn [fst snd found].
  - destruct (decide (parent dest ∈ unmakeable w)); [done|].
    destruct (decide (dest ∈ unwritable w)); [done|].
    destruct (cut_short w !! dest); [done|].
    destruct (decide (p ∈ unwritable w)); [done|].
    destruct (cut_short w !! p); [done|].
    intros [= <- <-]. simpl.
    assert (settled (joined rem)) as Hset.
    { destruct (Htidy rel content Hc) as [Hs | Hone].
      - unfold settled in Hs. by rewrite Hex in Hs.
      - eapply extract_settles; [apply readlines_well_split|done..]. }
    split_and!.
    + intros rel' c. destruct (decide (rel' = rel)) as [->|Hne].
      * fold p. rewrite lookup_insert_eq. intros [= <-]. by left.
      * rewrite lookup_insert_ne by (unfold p; by intros [= ?]).
        rewrite lookup_insert_ne by (symmetry; apply src_not_tests).
        apply Htidy.
    + intros c. rewrite lookup_insert_eq. by intros [= <-].
    + intros rel' Hne.
      rewrite lookup_insert_ne by (unfold p; by intros [= ?]).
      by rewrite lookup_insert_ne by (symmetry; apply src_not_tests).
    + intros q Hq. rewrite !lookup_insert. by repeat case_decide.
  - intros [= <- <-]. simpl. split_and!; [done| |done|done].
    intros c. rewrite Hc. intros [= <-]. unfold settled. by rewrite Hex.
Qed.

(** A run over listed files that ends well settles each of them; a
    source file is settled or keeps its content, and none disappears. *)
Lemma process_all_settles (w : world) (test_files : list path) (k n : nat)
    (σ σ' : state) :
  Forall (λ p, ∃ rel, p = src_dir ++ rel) test_files →
  tidy (files σ) →
  process_all w test_files k σ = (σ', Done n) →
  tidy (files σ') ∧
  (∀ rel, files σ' !! (src_dir ++ rel) = files σ !! (src_dir ++ rel)
          ∨ ∀ c, files σ' !! (src_dir ++ rel) = Some c → settled c) ∧
  (∀ p c, p ∈ test_files → files σ' !! p = Some c → settled c) ∧
  (∀ q, is_Some (files σ !! q) → is_Some (files σ' !! q)).
Proof.
  revert k σ. induction test_files as [|p tf IH]; intros k σ Hall Htidy;
    cbn [process_all].
  { unfold mret, io_ret. intros [= <- <-]. split_and!; [done|by left| |done].
    intros p c Hp. by apply elem_of_nil in Hp. }
  apply Forall_cons in Hall as [[rel ->] Hall].
  unfold mbind, io_bind.
  destruct (process_file w (src_dir ++ rel) σ) as [σ1 [b|e]] eqn:Hp; [|done].
  intros Hrest.
  destruct (process_file_settles w rel σ σ1 b Htidy Hp)
    as (Htidy1 & Hset1 & Hkeep1 & Hsome1).
  destruct (IH _ σ1 Hall Htidy1 Hrest) as (Htidy' & Hkeep' & Hset' & Hsome').
  assert (∀ c, files σ' !! (src_dir ++ rel) = Some c → settled c) as Hrel.
  { intros c Hc. destruct (Hkeep' rel) as [Heq | Hs]; [|by apply Hs].
    apply Hset1. by rewrite <- Heq. }
  split_and!.
  - done.
  - intros rel'. destruct (decide (rel' = rel)) as [->|Hne]; [by right|].
    destruct (Hkeep' rel') as [Heq | Hs]; [left|by right].
    by rewrite Heq, Hkeep1.
  - intros q c [->|Hq]%elem_of_cons; [apply Hrel|by apply Hset'].
  - intros q Hq. by apply Hsome', Hsome1.
Qed.

Lemma logged_logged (σ : state) (evs1 evs2 : list event) :
  logged (logged σ evs1) evs2 = logged σ (evs1 ++ evs2).
Proof. unfold logged. simpl. by rewrite app_assoc. Qed.

(** A run over readable, settled files only reports them. *)
Lemma process_all_quiet (w : world) (test_files : list path) (k : nat) (σ : state) :
  Forall (λ p, ∃ rel c, p = src_dir ++ rel ∧ (p ∉ unreadable w) ∧
                        files σ !! p = Some c ∧ settled c) test_files →
  process_all w test_files k σ = (logged σ (no_module_reports test_files), Done k).
Proof.
  revert σ. induction test_files as [|p tf IH]; intros σ Hall; cbn [process_all].
  { unfold mret, io_ret, logged, no_module_reports. simpl.
    rewrite app_nil_r. by destruct σ. }
  apply Forall_cons in Hall as [(rel & c & -> & Hr & Hc & Hs) Hall].
  unfold mbind, io_bind. rewrite process_file_eq. cbv zeta.
  rewrite decide_False by done. rewrite Hc, found_extract_lines, Hs.
  rewrite IH.
  - by rewrite logged_logged.
  - eapply Forall_impl; [exact Hall|]. simpl.
    intros q (rel' & c' & ? & ? & ? & ?). by exists rel', c'.
Qed.

(** What a run that ends well went through. *)
Lemma main_done (w : world) (σ σ' : state) (n : nat) :
  main w σ = (σ', Done n) →
  let σ1 := logged σ [Printed FindingModules] in
  let test_files := omap (listed (files σ)) (listing w) in
  Forall (openable w (files σ)) (listing w) ∧
  ∃ σ2, process_all w test_files 0
          (logged σ1 [Printed (FoundFiles (length test_files))]) = (σ2, Done n) ∧
        σ' = logged σ2 [Printed (ProcessedFiles n)].
Proof.
  unfold main, find_test_modules. unfold mbind at 1, io_bind at 1.
  unfold print at 1. fold (logged σ [Printed FindingModules]).
  unfold mbind at 1, io_bind at 1.
  destruct (find_in w (listing w) [] (logged σ [Printed FindingModules]))
    as [σ1 [tf|e]] eqn:Hfind; [|done].
  apply find_in_inv in Hfind as [-> [Hopen ->]]. simpl app. simpl files.
  unfold mbind at 1, io_bind at 1. unfold print at 1.
  unfold mbind at 1, io_bind at 1.
  destruct (process_all _ _ _ _) as [σ2 [m|e]] eqn:Hall; [|done].
  unfold mbind, io_bind, print, mret, io_ret. intros [= <- <-].
  split; [done|]. by exists σ2.
Qed.

Lemma main_eq (w : world) (σ : state) :
  main w σ =
  match find_in w (listing w) [] (logged σ [Printed FindingModules]) with
  | (σ1, Done test_files) =>
      match process_all w test_files 0
              (logged σ1 [Printed (FoundFiles (length test_files))]) with
      | (σ2, Done processed) =>
          (logged σ2 [Printed (ProcessedFiles processed)], Done processed)
      | (σ2, Raised e) => (σ2, Raised e)
      end
  | (σ1, Raised e) => (σ1, Raised e)
  end.
Proof.
  unfold main, find_test_modules, mbind, io_bind, print, mret, io_ret, logged.
  destruct (find_in _ _ _ _) as [σ1 [tf|e]]; [|done].
  by destruct (process_all _ _ _ _) as [σ2 [k|e]].
Qed.

(** C4, as amended: on a tree whose source files each hold at most one
    line with the block marker, after a first run that ends well a
    second run reports every file it still lists as without a test
    module, processes none and leaves every file as it is. *)
Theorem second_run_changes_nothing (w : world) (σ σ1 : state) (n : nat) :
  (∀ rel content, files σ !! (src_dir ++ rel) = Some content →
                  single_marker (readlines content)) →
  main w σ = (σ1, Done n) →
  let test_files := omap (listed (files σ1)) (listing w) in
  main w σ1 =
  (logged σ1 ([Printed FindingModules; Printed (FoundFiles (length test_files))]
              ++ no_module_reports test_files
              ++ [Printed (ProcessedFiles 0)]),
   Done 0).
Proof.
  intros Hone Hrun tf2.
  apply main_done in Hrun as (Hopen & σ2 & Hall & ->).
  apply process_all_settles in Hall as (_ & Hkeep & Hset & Hsome);
    [|apply listed_under_src|intros rel c Hc; right; by eapply Hone].
  simpl files in *.
  rewrite main_eq.
  rewrite find_in_done.
  2:{ eapply Forall_impl; [exact Hopen|]. intros rel Hrel Hrs.
      destruct (Hrel Hrs) as [? ?]. split; [done|]. by apply Hsome. }
  simpl app. simpl files. fold tf2.
  rewrite process_all_quiet.
  { by rewrite !logged_logged. }
  apply Forall_forall. intros p Hp.
  apply elem_of_listed in Hp as (rel & c & Hin & -> & Hrs & Hc & Hm).
  exists rel, c. split; [done|].
  rewrite Forall_forall in Hopen. destruct (Hopen rel Hin Hrs) as [Hr _].
  split; [done|]. split; [done|].
  destruct (Hkeep rel) as [Heq | Hs]; [|by apply Hs].
  apply (Hset (src_dir ++ rel)); [|done].
  apply elem_of_listed. exists rel, c. by rewrite <- Heq.
Qed.

(** A list with at most one marker line, by counting. *)
Lemma single_marker_count (lines : list string) :
  length (filter (λ l, contains cfg_test l = true) lines) ≤ 1 →
  single_marker lines.
Proof.
  induction lines as [|l ls IH]; intros Hlen i j li lj Hi Hj Hmi Hmj.
  { by rewrite lookup_nil in Hi. }
  assert (∀ k lk, ls !! k = Some lk → contains cfg_test lk = true →
                  0 < length (filter (λ l, contains cfg_test l = true) ls)) as Hpos.
  { intros k lk Hk Hm.
    assert (lk ∈ filter (λ l, contains cfg_test l = true) ls) as Hin.
    { apply list_elem_of_filter. split; [done|]. by eapply list_elem_of_lookup_2. }
    destruct (filter _ ls); [by apply elem_of_nil in Hin|simpl; lia]. }
  rewrite filter_cons in Hlen.
  destruct i as [|i], j as [|j]; simpl in Hi, Hj.
  - done.
  - injection Hi as ->. rewrite decide_True in Hlen by done.
    specialize (Hpos j lj Hj Hmj). simpl in Hlen. lia.
  - injection Hj as ->. rewrite decide_True in Hlen by done.
    specialize (Hpos i li Hi Hmi). simpl in Hlen. lia.
  - f_equal. apply (IH ltac:(case_decide; simpl in Hlen; lia) i j li lj); done.
Qed.

Lemma second_run_changes_nothing_witness :
  let σ1 := (main lib_world lib_tree).1 in
  let test_files := omap (listed (files σ1)) (listing lib_world) in
  main lib_world σ1 =
  (logged σ1 ([Printed FindingModules; Printed (FoundFiles (length test_files))]
              ++ no_module_reports test_files
              ++ [Printed (ProcessedFiles 0)]),
   Done 0).
Proof.
  apply (second_run_changes_nothing lib_world lib_tree _ 1).
  - intros rel content Hc. unfold lib_tree in Hc. cbn [files] in Hc.
    apply lookup_singleton_Some in Hc as [_ <-].
    apply single_marker_count. vm_compute. lia.
  - vm_compute. reflexivity.
Defined.

(** C4, as stated, fails on a file with two test modules: the first run
    moves the first, the second run finds the other and rewrites the
    file again. *)
Lemma second_run_rewrites :
  ∃ σ1 σ2,
    main lib_world two_blocks_tree = (σ1, Done 1) ∧
    main lib_world σ1 = (σ2, Done 1) ∧
    files σ1 !! ["src"; "lib.rs"]
      = Some (joined [ln "#[cfg(test)]"; ln "mod tests {"; ln "}"]) ∧
    files σ2 !! ["src"; "lib.rs"] = Some "" ∧
    files σ2 !! ["src"; "lib.rs"] ≠ files σ1 !! ["src"; "lib.rs"].
Proof.
  eexists _, _. split; [by vm_compute|]. split; [by vm_compute|].
  by vm_compute.
Qed.

(** * Further properties *)

(** ** The start of the block *)



(** X2: the block is never empty and opens with the marker line. *)
Theorem block_opens_with_marker (lines block rem : list string) :
  extract_lines lines = (Some block, rem) →
  ∃ l rest, block = l :: rest ∧ contains cfg_test l = true ∧
            length block ≤ length lines.
Proof.
  intros Hex. apply extract_lines_found in Hex as (s & Hs & Hse & -> & _).
  set (e := test_end (scan_from lines s)) in *.
  apply find_test_start_spec in Hs as (_ & (l & Hl & Hm) & _).
  rewrite Nat.sub_0_r in Hl.
  pose proof (length_slice lines s e Hse) as Hlen.
  unfold slice in *. rewrite (drop_S lines l s Hl) in *.
  replace (S e - s) with (S (e - s)) in * by lia. simpl in *.
  exists l, (take (e - s) (drop (S s) lines)). split_and!; [done|done|lia].
Qed.

Lemma block_opens_with_marker_witness :
  ∃ l rest, lib_block = l :: rest ∧ contains cfg_test l = true ∧
            length lib_block ≤ length lib_lines.
Proof. apply (block_opens_with_marker lib_lines lib_block lib_rem). by vm_compute. Defined.

(** ** Trailing blank lines, again *)

Lemma pop_blank_fixed (fuel : nat) (ls : list string) :
  (∀ l, last ls = Some l → is_blank l = false) → pop_blank fuel ls = ls.
Proof.
  intros H. destruct fuel as [|fuel]; [done|]. simpl.
  destruct (last ls) as [l|]; [|done]. by rewrite (H l).
Qed.

(** X3: popping the trailing blank lines keeps a prefix of the lines
    whose dropped tail is all blank, changes nothing when the last line
    is not blank, and done twice is the same as done once. *)
Theorem strip_trailing_blank_idempotent (ls : list string) :
  strip_trailing_blank (strip_trailing_blank ls) = strip_trailing_blank ls ∧
  strip_trailing_blank ls `prefix_of` ls ∧
  (strip_trailing_blank ls = ls ↔ ∀ l, last ls = Some l → is_blank l = false).
Proof.
  destruct (strip_trailing_blank_spec ls) as (blanks & Heq & Hall & Hlast).
  split_and!.
  - by apply pop_blank_fixed.
  - by exists blanks.
  - split.
    + intros <-. done.
    + intros H. by apply pop_blank_fixed.
Qed.

(** ** A module that is never opened *)

Lemma scan_braces_unopened (rest : list string) (i : nat) (st : scan_state) :
  in_test_module st = false →
  Forall (λ l, opens_module l = false) rest →
  scan_braces rest i st = st.
Proof.
  intros Hin Hall. revert i. induction Hall as [|l rest Hl _ IH]; intros i; simpl;
    [done|].
  by rewrite Hl, Hin.
Qed.

(** X4: when no line from the start line on holds both ['mod tests']
    and an opening brace, the block is the marker line alone: only that
    line leaves the source, the module below it stays. *)
Theorem unopened_module_loses_marker_only (lines : list string) (test_start : nat) :
  find_test_start lines lines 0 = Some test_start →
  Forall (λ l, opens_module l = false) (drop test_start lines) →
  ∃ l, lines !! test_start = Some l ∧ contains cfg_test l = true ∧
       extract_lines lines =
       (Some [l],
        strip_trailing_blank (take test_start lines ++ drop (S test_start) lines)).
Proof.
  intros Hfind Hall. unfold extract_lines. rewrite Hfind.
  unfold scan_from. rewrite scan_braces_unopened by done. simpl.
  apply find_test_start_spec in Hfind as (_ & (l & Hl & Hm) & _).
  rewrite Nat.sub_0_r in Hl. exists l. split_and!; [done|done|].
  unfold slice. replace (S test_start - test_start) with 1 by lia.
  by rewrite (drop_S lines l test_start Hl).
Qed.

Lemma unopened_module_loses_marker_only_witness :
  ∃ l, allman !! 0 = Some l ∧ contains cfg_test l = true ∧
       extract_lines allman =
       (Some [l], strip_trailing_blank (take 0 allman ++ drop 1 allman)).
Proof.
  apply (unopened_module_loses_marker_only allman 0).
  - by vm_compute.
  - repeat constructor.
Defined.

(** ** The fragments *)

Lemma collect_line_shape (c : collector) (line : string) :
  let fragment fn :=
    ∃ first mid last,
      fn = first :: mid ++ [last] ∧ has_test_marker first = true ∧
      Forall (λ l, has_test_marker l = false) (mid ++ [last]) ∧
      contains "}" last = true ∧ contains "{" last = false ∧
      contains "fn " (joined fn) = true in
  let pending cur :=
    ∃ first rest, cur = first :: rest ∧ has_test_marker first = true ∧
                  Forall (λ l, has_test_marker l = false) rest in
  Forall fragment (test_functions c) ∧ (in_test_fn c = true → pending (current_fn c)) →
  Forall fragment (test_functions (collect_line c line)) ∧
  (in_test_fn (collect_line c line) = true → pending (current_fn (collect_line c line))).
Proof.
  intros fragment pending [Htf Hcur]. unfold collect_line.
  destruct (contains "#[test]" line) eqn:Hm; simpl.
  { split; [done|]. intros _. exists line, []. by split_and!. }
  destruct (in_test_fn c) eqn:Hin; [|by rewrite Hin].
  destruct (Hcur eq_refl) as (first & rest & Hc & Hfirst & Hrest).
  assert (pending (current_fn c ++ [line])) as Hpend.
  { exists first, (rest ++ [line]). rewrite Hc. split_and!; [done|done|].
    apply Forall_app. split; [done|]. by constructor. }
  destruct (contains "{" line) eqn:Ho; simpl; [done|].
  destruct (contains "}" line) eqn:Hcl; simpl; [|done].
  destruct ((_ =? 0)%Z && _) eqn:Hend; simpl; [|done].
  split; [|done]. apply Forall_app. split; [done|]. constructor; [|done].
  apply andb_true_iff in Hend as [_ Hfn].
  exists first, rest, line. rewrite Hc in *. split_and!; try done.
  apply Forall_app. split; [done|]. by constructor.
Qed.

(** X5: every fragment opens with a line holding ['#[test]'], holds
    that marker on no other line, closes with a line that holds a
    closing brace and no opening one, and holds ['fn '] somewhere. *)
Theorem fragment_shape (block fn : list string) :
  fn ∈ collect_test_functions block →
  ∃ first mid last,
    fn = first :: mid ++ [last] ∧ has_test_marker first = true ∧
    Forall (λ l, has_test_marker l = false) (mid ++ [last]) ∧
    contains "}" last = true ∧ contains "{" last = false ∧
    contains "fn " (joined fn) = true.
Proof.
  unfold collect_test_functions.
  assert (∀ ls c,
    Forall (λ fn, ∃ first mid last,
      fn = first :: mid ++ [last] ∧ has_test_marker first = true ∧
      Forall (λ l, has_test_marker l = false) (mid ++ [last]) ∧
      contains "}" last = true ∧ contains "{" last = false ∧
      contains "fn " (joined fn) = true) (test_functions c) ∧
    (in_test_fn c = true →
     ∃ first rest, current_fn c = first :: rest ∧ has_test_marker first = true ∧
                   Forall (λ l, has_test_marker l = false) rest) →
    Forall (λ fn, ∃ first mid last,
      fn = first :: mid ++ [last] ∧ has_test_marker first = true ∧
      Forall (λ l, has_test_marker l = false) (mid ++ [last]) ∧
      contains "}" last = true ∧ contains "{" last = false ∧
      contains "fn " (joined fn) = true)
      (test_functions (foldl collect_line c ls))) as Hfold.
  { induction ls as [|l ls IH]; intros c Hc; simpl; [by destruct Hc|].
    apply IH. by apply collect_line_shape. }
  intros Hin.
  specialize (Hfold block (Collector [] false [] 0)
                ltac:(split; [constructor|done])).
  rewrite Forall_forall in Hfold. by apply Hfold.
Qed.

Lemma fragment_shape_witness :
  ∃ first mid last,
    [ln "    #[test]"; ln "    fn t() {"; ln "        f();"; ln "    }"]
      = first :: mid ++ [last] ∧ has_test_marker first = true ∧
    Forall (λ l, has_test_marker l = false) (mid ++ [last]) ∧
    contains "}" last = true ∧ contains "{" last = false ∧
    contains "fn " (joined [ln "    #[test]"; ln "    fn t() {";
                            ln "        f();"; ln "    }"]) = true.
Proof.
  apply (fragment_shape lib_block). vm_compute. apply list_elem_of_here.
Defined.

Lemma collect_line_count (c : collector) (line : string) :
  length (test_functions (collect_line c line))
    + (if in_test_fn (collect_line c line) then 1 else 0)
  ≤ length (test_functions c) + (if in_test_fn c then 1 else 0)
    + (if has_test_marker line then 1 else 0).
Proof.
  unfold collect_line, has_test_marker.
  destruct (contains "#[test]" line); simpl; [destruct (in_test_fn c); lia|].
  destruct (in_test_fn c) eqn:Hin; [|rewrite Hin; lia].
  destruct (contains "{" line); simpl; [lia|].
  destruct (contains "}" line); simpl; [|lia].
  destruct (_ && _); simpl; [|lia].
  rewrite length_app. simpl. lia.
Qed.

Lemma foldl_collect_count (ls : list string) (c : collector) :
  length (test_functions (foldl collect_line c ls))
    + (if in_test_fn (foldl collect_line c ls) then 1 else 0)
  ≤ length (test_functions c) + (if in_test_fn c then 1 else 0) + marked_lines ls.
Proof.
  revert c. induction ls as [|l ls IH]; intros c; simpl.
  { unfold marked_lines. simpl. lia. }
  specialize (IH (collect_line c l)).
  pose proof (collect_line_count c l) as Hl.
  unfold marked_lines in *. rewrite filter_cons.
  destruct (has_test_marker l); [rewrite decide_True by done|rewrite decide_False by done];
    simpl; lia.
Qed.

(** X6: a block yields no more fragments than it has lines holding
    ['#[test]']; a block without such a line yields a test file of the
    five header lines only. *)
Theorem fragments_bounded_by_markers (rel : path) (block : list string) :
  length (collect_test_functions block) ≤ marked_lines block ∧
  (marked_lines block = 0 → test_file_content rel block = header rel).
Proof.
  pose proof (foldl_collect_count block (Collector [] false [] 0)) as H.
  simpl in H. unfold collect_test_functions.
  assert (length (test_functions (foldl collect_line (Collector [] false [] 0) block))
          ≤ marked_lines block) as Hlen by lia.
  split; [done|]. intros H0. unfold test_file_content, collect_test_functions.
  destruct (test_functions _); [by rewrite app_nil_r|simpl in Hlen; lia].
Qed.

(** ** Stripping the indentation *)

(** X7: a cleaned line is the line itself or the line without its
    first four characters, which then are four spaces of a line that is
    not blank; cleaning changes neither the brace count nor whether the
    line is blank. *)
Theorem clean_line_suffix (l : string) :
  ∃ pre, l = pre +:+ clean_line l ∧
         (pre = "" ∨ (pre = "    " ∧ is_blank l = false)) ∧
         brace_delta (clean_line l) = brace_delta l ∧
         is_blank (clean_line l) = is_blank l.
Proof.
  unfold clean_line.
  destruct (truthy (strip l)) eqn:Ht.
  2:{ exists "". split_and!; [done|by left|done|done]. }
  destruct (startswith "    " l) eqn:Hs.
  2:{ exists "". split_and!; [done|by left|done|done]. }
  apply startswith_unit in Hs. exists "    ". split_and!.
  - done.
  - right. unfold is_blank. by rewrite Ht.
  - by rewrite Hs at 2.
  - unfold is_blank. rewrite Hs at 2. by rewrite strip_unit.
Qed.

(** ** Module paths *)

Lemma parent_snoc (dirs : path) (n : string) : parent (dirs ++ [n]) = dirs.
Proof. unfold parent. apply removelast_last. Qed.

(** X8: a directory module [b/mod.rs] and its sibling file [b.rs] get
    the same module path, hence the same header, but test files of
    their own. *)
Theorem module_index_shares_module_path (dirs : path) (b : string) :
  b ≠ "" → b ≠ "mod" → b ≠ "mod.rs" →
  module_path (dirs ++ [b; "mod.rs"]) = module_path (dirs ++ [b +:+ ".rs"]) ∧
  header (dirs ++ [b; "mod.rs"]) = header (dirs ++ [b +:+ ".rs"]) ∧
  test_file_path tests_dir (dirs ++ [b; "mod.rs"])
    ≠ test_file_path tests_dir (dirs ++ [b +:+ ".rs"]).
Proof.
  intros Hb Hmod Hmodrs.
  assert (stem (dirs ++ [b; "mod.rs"]) = "mod") as Hs1.
  { apply (stem_rs _ "mod"); [|done].
    replace (dirs ++ [b; "mod.rs"]) with ((dirs ++ [b]) ++ ["mod.rs"])
      by (by rewrite <- app_assoc).
    by rewrite last_snoc. }
  assert (stem (dirs ++ [b +:+ ".rs"]) = b) as Hs2.
  { apply stem_rs; [|done]. by rewrite last_snoc. }
  assert (parent (dirs ++ [b; "mod.rs"]) = dirs ++ [b]) as Hp1.
  { replace (dirs ++ [b; "mod.rs"]) with ((dirs ++ [b]) ++ ["mod.rs"])
      by (by rewrite <- app_assoc).
    apply parent_snoc. }
  assert (module_path (dirs ++ [b; "mod.rs"]) = module_path (dirs ++ [b +:+ ".rs"]))
    as Hmp.
  { unfold module_path, module_parts. rewrite Hs1, Hs2, Hp1, parent_snoc.
    rewrite decide_False by (by intros ?).
    rewrite decide_True by done.
    rewrite filter_app, filter_cons, decide_True by done.
    by rewrite app_nil_r. }
  split_and!.
  - done.
  - unfold header. by rewrite Hmp.
  - unfold test_file_path. rewrite Hs1, Hs2, Hp1, parent_snoc.
    intros Heq. apply app_inv_head in Heq.
    apply (f_equal length) in Heq. rewrite !length_app in Heq. simpl in Heq. lia.
Qed.

Lemma module_index_shares_module_path_witness :
  module_path (["x"] ++ ["a"; "mod.rs"]) = module_path (["x"] ++ ["a" +:+ ".rs"]) ∧
  header (["x"] ++ ["a"; "mod.rs"]) = header (["x"] ++ ["a" +:+ ".rs"]) ∧
  test_file_path tests_dir (["x"] ++ ["a"; "mod.rs"])
    ≠ test_file_path tests_dir (["x"] ++ ["a" +:+ ".rs"]).
Proof.
  apply (module_index_shares_module_path ["x"] "a"); by vm_compute.
Defined.

(** ** The list of files to process *)



(** X10: the scan of the tree ends well exactly when every walked file
    whose name ends in [.rs] can be opened; the other walked files are
    never opened, readable or not. *)
Theorem find_test_modules_opens_rs_only (w : world) (σ : state) :
  (∃ test_files, find_test_modules w σ = (σ, Done test_files)) ↔
  ∀ rel, rel ∈ listing w → endswith ".rs" (name rel) = true →
         (src_dir ++ rel ∉ unreadable w) ∧ is_Some (files σ !! (src_dir ++ rel)).
Proof.
  unfold find_test_modules. split.
  - intros [tf H]. apply find_in_inv in H as [_ [Hall _]].
    rewrite Forall_forall in Hall. intros rel Hin Hrs. by apply Hall.
  - intros H. eexists. apply find_in_done. apply Forall_forall.
    intros rel Hin Hrs. by apply H.
Qed.

Lemma startswith_append (p s t : string) :
  startswith p s = true → startswith p (s +:+ t) = true.
Proof.
  revert s. induction p as [|a p IH]; intros [|b s]; try done.
  rewrite append_cons. simpl. case_decide; [apply IH|done].
Qed.

Lemma startswith_nil (p : string) : startswith p "" = true → p = "".
Proof. by destruct p. Qed.

Lemma contains_append_r (p s t : string) :
  contains p s = true → contains p (s +:+ t) = true.
Proof.
  induction s as [|c s IH]; simpl.
  - rewrite orb_false_r. intros ->%startswith_nil. by destruct t.
  - rewrite ?append_cons. simpl. intros [H|H]%orb_true_iff.
    + pose proof (startswith_append p (String c s) t H) as H'.
      rewrite append_cons in H'. by rewrite H'.
    + rewrite (IH H). apply orb_true_r.
Qed.

Lemma contains_append_l (p s t : string) :
  contains p s = true → contains p (t +:+ s) = true.
Proof.
  intros H. induction t as [|c t IH]; [done|].
  rewrite ?append_cons. simpl. rewrite IH. apply orb_true_r.
Qed.

Lemma contains_joined (p l : string) (ls : list string) :
  l ∈ ls → contains p l = true → contains p (joined ls) = true.
Proof.
  intros Hin Hl. induction ls as [|x ls IH]; [by apply elem_of_nil in Hin|].
  simpl. apply elem_of_cons in Hin as [<-|Hin].
  - by apply contains_append_r.
  - by apply contains_append_l, IH.
Qed.

Lemma mod_tests_at_elem (lines : list string) (j : nat) :
  mod_tests_at lines j = true → ∃ l, l ∈ lines ∧ contains mod_tests l = true.
Proof.
  unfold mod_tests_at. destruct (lines !! j) as [l|] eqn:Hl; [|done].
  intros H. exists l. split; [by eapply list_elem_of_lookup_2|done].
Qed.

(** X11: the test on the whole content never hides a file: a walked
    [.rs] file in which [extract_test_module] finds a block is always
    among the files the scan lists. *)
Theorem files_with_a_block_are_listed (w : world) (σ σ' : state)
    (test_files : list path) (rel : path) (content : string) :
  find_test_modules w σ = (σ', Done test_files) →
  rel ∈ listing w → endswith ".rs" (name rel) = true →
  files σ !! (src_dir ++ rel) = Some content →
  (extract_lines (readlines content)).1 ≠ None →
  src_dir ++ rel ∈ test_files.
Proof.
  unfold find_test_modules. intros H Hin Hrs Hc Hex.
  apply find_in_inv in H as [-> [_ ->]]. simpl.
  apply elem_of_listed. exists rel, content. split_and!; try done.
  unfold extract_lines in Hex.
  destruct (find_test_start _ _ 0) as [s|] eqn:Hs; [|done].
  apply find_test_start_spec in Hs as (_ & (l & Hl & Hm) & Hmod).
  rewrite <- (joined_readlines content) at 1 2.
  apply andb_true_iff. split.
  - eapply contains_joined; [|exact Hm]. by eapply list_elem_of_lookup_2.
  - destruct Hmod as [Hmod|Hmod]; apply mod_tests_at_elem in Hmod as (l' & ? & ?);
      by eapply contains_joined.
Qed.

Lemma files_with_a_block_are_listed_witness :
  src_dir ++ ["lib.rs"] ∈ [["src"; "lib.rs"]].
Proof.
  apply (files_with_a_block_are_listed lib_world lib_tree lib_tree
           [["src"; "lib.rs"]] ["lib.rs"] lib_rs).
  - by vm_compute.
  - apply list_elem_of_here.
  - by vm_compute.
  - by vm_compute.
  - by vm_compute.
Defined.

(** ** Runs that move nothing *)



(** ** What a run may touch *)

Lemma only_listed_change_refl (w : world) (σ : state) (evs : list event) :
  only_listed_change w σ (logged σ evs).
Proof. by split. Qed.

Lemma only_listed_change_trans (w : world) (σ1 σ2 σ3 : state) :
  only_listed_change w σ1 σ2 → only_listed_change w σ2 σ3 →
  only_listed_change w σ1 σ3.
Proof.
  intros [Hs1 Hk1] [Hs2 Hk2]. split.
  - intros q Hq. by apply Hs2, Hs1.
  - intros q Hq. by rewrite Hk2, Hk1.
Qed.

Lemma bind_only_listed {A B} (w : world) (m : io A) (k : A → io B) (σ : state) :
  only_listed_change w σ (m σ).1 →
  (∀ a σ1, m σ = (σ1, Done a) → only_listed_change w σ1 (k a σ1).1) →
  only_listed_change w σ ((m ≫= k) σ).1.
Proof.
  intros Hm Hk. unfold mbind, io_bind.
  destruct (m σ) as [σ1 [a|e]]; simpl in *; [|done].
  eapply only_listed_change_trans; [exact Hm|]. by apply Hk.
Qed.

Lemma process_file_only_listed (w : world) (rel : path) (σ : state) :
  rel ∈ listing w →
  only_listed_change w σ (process_file w (src_dir ++ rel) σ).1.
Proof.
  intros Hin. rewrite process_file_eq. cbv zeta.
  set (p := src_dir ++ rel). set (dest := test_file_path tests_dir rel).
  assert (∀ fs evs,
            only_listed_change w σ (State (<[dest := fs]> (files σ)) evs))
    as Hdest.
  { intros fs evs. split; cbn [files].
    - intros q Hq. rewrite lookup_insert_is_Some. destruct (decide (dest = q)); auto.
    - intros q Hq. destruct (Hq rel Hin) as [_ ?]. by rewrite lookup_insert_ne. }
  assert (∀ fs fs' evs,
            only_listed_change w σ
              (State (<[p := fs]> (<[dest := fs']> (files σ))) evs))
    as Hboth.
  { intros fs fs' evs. split; cbn [files].
    - intros q Hq. rewrite !lookup_insert_is_Some.
      destruct (decide (p = q)); [by left|right; split; [done|]].
      destruct (decide (dest = q)); auto.
    - intros q Hq. destruct (Hq rel Hin) as [? ?]. by rewrite !lookup_insert_ne. }
  destruct (decide (p ∈ unreadable w)); [apply only_listed_change_refl|].
  destruct (files σ !! p) as [content|]; [|apply only_listed_change_refl].
  destruct (found _) as [block|]; [|apply only_listed_change_refl].
  destruct (decide (parent dest ∈ unmakeable w)); [apply only_listed_change_refl|].
  destruct (decide (dest ∈ unwritable w)); [apply only_listed_change_refl|].
  destruct (cut_short w !! dest); [apply Hdest|].
  destruct (decide (p ∈ unwritable w)); [apply Hdest|].
  destruct (cut_short w !! p); apply Hboth.
Qed.

Lemma process_all_only_listed (w : world) (test_files : list path) (k : nat)
    (σ : state) :
  Forall (λ p, ∃ rel, rel ∈ listing w ∧ p = src_dir ++ rel) test_files →
  only_listed_change w σ (process_all w test_files k σ).1.
Proof.
  revert k σ. induction test_files as [|p tf IH]; intros k σ Hall; cbn [process_all].
  { apply (only_listed_change_refl w σ []). }
  apply Forall_cons in Hall as [(rel & Hin & ->) Hall].
  apply bind_only_listed; [by apply process_file_only_listed|].
  intros b σ1 _. by apply IH.
Qed.

(** X13: a run, however it ends, removes no file and changes no file
    other than the walked source files and their test files. *)
Theorem run_touches_listed_files_only (w : world) (σ : state) :
  (∀ q, is_Some (files σ !! q) → is_Some (files (main w σ).1 !! q)) ∧
  ∀ q, (∀ rel, rel ∈ listing w →
               q ≠ src_dir ++ rel ∧ q ≠ test_file_path tests_dir rel) →
       files (main w σ).1 !! q = files σ !! q.
Proof.
  change (only_listed_change w σ (main w σ).1). unfold main.
  apply bind_only_listed; [apply only_listed_change_refl|]. intros _ σ1 _.
  apply bind_only_listed.
  { unfold find_test_modules.
    destruct (find_in w (listing w) [] σ1) as [σ2 r] eqn:H.
    apply find_in_inv in H as [-> _]. apply (only_listed_change_refl w σ1 []). }
  intros tf σ2 Hfind. unfold find_test_modules in Hfind.
  apply find_in_inv in Hfind as [-> [_ ->]].
  apply bind_only_listed; [apply only_listed_change_refl|]. intros _ σ3 _.
  apply bind_only_listed.
  { apply process_all_only_listed. apply Forall_forall. intros p Hp.
    apply elem_of_listed in Hp as (rel & _ & Hin & -> & _). by exists rel. }
  intros n σ4 _.
  apply bind_only_listed; [apply only_listed_change_refl|]. intros _ σ5 _.
  apply (only_listed_change_refl w σ5 []).
Qed.

(** ** Failing writes *)

(** X14: when the test file is written and the source then fails, the
    step raises with the test file holding the copy.  If the source
    cannot be opened for writing it keeps its content, test module
    included; if the write fails after the source was opened, the
    source is left with the beginning of the remainder, nothing of it
    when the failure comes at once. *)
Theorem failed_source_write (w : world) (σ : state) (rel : path)
    (content : string) (block rem : list string) :
  let p := src_dir ++ rel in
  let dest := test_file_path tests_dir rel in
  files σ !! p = Some content → p ∉ unreadable w →
  extract_lines (readlines content) = (Some block, rem) →
  parent dest ∉ unmakeable w → dest ∉ unwritable w → cut_short w !! dest = None →
  (p ∈ unwritable w →
   ∃ σ', process_file w p σ = (σ', Raised (CannotWrite p)) ∧
         files σ' !! p = Some content ∧
         files σ' !! dest = Some (joined (test_file_content rel block)) ∧
         trace σ' = trace σ ++ moving p dest ++ moved p dest) ∧
  (p ∉ unwritable w → ∀ n, cut_short w !! p = Some n →
   ∃ σ', process_file w p σ = (σ', Raised (WriteFailed p)) ∧
         files σ' !! p = Some (slice_to n (joined rem)) ∧
         files σ' !! dest = Some (joined (test_file_content rel block)) ∧
         trace σ' = trace σ ++ moving p dest ++ moved p dest ++ [Wrote p]).
Proof.
  intros p dest Hc Hr Hex Hmk Hwd Hcd.
  pose proof (found_extract_lines (readlines content)) as Hf.
  pose proof (process_file_eq w rel σ) as Heq. cbv zeta in Heq.
  fold p dest in Heq.
  rewrite decide_False in Heq by done. rewrite Hc, Hf, Hex in Heq.
  cbn [fst snd] in Heq.
  rewrite (decide_False (P := parent dest ∈ unmakeable w)) in Heq by done.
  rewrite (decide_False (P := dest ∈ unwritable w)) in Heq by done.
  rewrite Hcd in Heq.
  split.
  - intros Hwp.
    rewrite (decide_True (P := p ∈ unwritable w)) in Heq by done.
    eexists. split; [exact Heq|]. cbn [files trace].
    split_and!; [|by rewrite lookup_insert_eq|done].
    rewrite lookup_insert_ne; [done|]. symmetry. apply src_not_tests.
  - intros Hwp n Hn.
    rewrite (decide_False (P := p ∈ unwritable w)) in Heq by done.
    rewrite Hn in Heq.
    eexists. split; [exact Heq|]. cbn [files trace].
    split_and!; [by rewrite lookup_insert_eq| |by rewrite <- !app_assoc].
    rewrite lookup_insert_ne by apply src_not_tests.
    by rewrite lookup_insert_eq.
Qed.

Lemma failed_source_write_witness :
  let w := World [["lib.rs"]] ∅ ∅ ∅ {[ ["src"; "lib.rs"] := 0 ]} in
  let p := src_dir ++ ["lib.rs"] in
  let dest := test_file_path tests_dir ["lib.rs"] in
  (p ∈ unwritable w →
   ∃ σ', process_file w p lib_tree = (σ', Raised (CannotWrite p)) ∧
         files σ' !! p = Some lib_rs ∧
         files σ' !! dest = Some (joined (test_file_content ["lib.rs"] lib_block)) ∧
         trace σ' = trace lib_tree ++ moving p dest ++ moved p dest) ∧
  (p ∉ unwritable w → ∀ n, cut_short w !! p = Some n →
   ∃ σ', process_file w p lib_tree = (σ', Raised (WriteFailed p)) ∧
         files σ' !! p = Some (slice_to n (joined lib_rem)) ∧
         files σ' !! dest = Some (joined (test_file_content ["lib.rs"] lib_block)) ∧
         trace σ' = trace lib_tree ++ moving p dest ++ moved p dest ++ [Wrote p]).
Proof.
  apply (failed_source_write (World [["lib.rs"]] ∅ ∅ ∅ {[ ["src"; "lib.rs"] := 0 ]})
           lib_tree ["lib.rs"] lib_rs lib_block lib_rem).
  - by vm_compute.
  - apply not_elem_of_empty.
  - by vm_compute.
  - apply not_elem_of_empty.
  - apply not_elem_of_empty.
  - by vm_compute.
Defined.

(** A source whose write fails at once is left empty. *)
Example source_left_empty :
  let w := World [["lib.rs"]] ∅ ∅ ∅ {[ ["src"; "lib.rs"] := 0 ]} in
  ∃ σ', main w lib_tree = (σ', Raised (WriteFailed ["src"; "lib.rs"])) ∧
        files σ' !! ["src"; "lib.rs"] = Some "".
Proof. eexists. split; by vm_compute. Qed.

Lemma failed_destination_keeps_source_witness :
  let w := World [["lib.rs"]] ∅ ∅ ∅ {[ ["tests"; "lib_tests.rs"] := 3 ]} in
  let p := src_dir ++ ["lib.rs"] in
  let dest := test_file_path tests_dir ["lib.rs"] in
  ∃ σ' e, process_file w p lib_tree = (σ', e) ∧ e ≠ Done true ∧
    files σ' !! p = files lib_tree !! p ∧
    (files σ' = files lib_tree
     ∨ ∃ n content block,
         cut_short w !! dest = Some n ∧
         (parent dest ∉ unmakeable w) ∧ (dest ∉ unwritable w) ∧
         files lib_tree !! p = Some content ∧
         (extract_lines (readlines content)).1 = Some block ∧
         e = Raised (WriteFailed dest) ∧
         files σ' = <[dest := slice_to n (joined (test_file_content ["lib.rs"] block))]>
                      (files lib_tree)).
Proof.
  apply (failed_destination_keeps_source
           (World [["lib.rs"]] ∅ ∅ ∅ {[ ["tests"; "lib_tests.rs"] := 3 ]})
           lib_tree ["lib.rs"]).
  right. right. eexists. by vm_compute.
Defined.

(** ** The count of processed files *)

Lemma process_all_count (w : world) (test_files : list path) (k n : nat)
    (σ σ' : state) :
  process_all w test_files k σ = (σ', Done n) →
  k ≤ n ≤ k + length test_files.
Proof.
  revert k σ. induction test_files as [|p tf IH]; intros k σ; cbn [process_all].
  { unfold mret, io_ret. intros [= <- <-]. simpl. lia. }
  unfold mbind, io_bind.
  destruct (process_file w p σ) as [σ1 [b|e]]; [|done].
  intros H. apply IH in H. simpl. destruct b; lia.
Qed.

(** X15: a run that ends well has listed its files without error,
    reports a count no larger than the number of files listed, and
    prints that count last. *)
Theorem processed_at_most_listed (w : world) (σ σ' : state) (n : nat) :
  main w σ = (σ', Done n) →
  ∃ test_files,
    find_test_modules w σ = (σ, Done test_files) ∧
    n ≤ length test_files ∧
    last (trace σ') = Some (Printed (ProcessedFiles n)).
Proof.
  intros H. apply main_done in H as (Hopen & σ2 & Hall & ->).
  exists (omap (listed (files σ)) (listing w)). split_and!.
  - unfold find_test_modules. by rewrite find_in_done.
  - apply process_all_count in Hall. lia.
  - simpl. apply last_snoc.
Qed.

Lemma processed_at_most_listed_witness :
  ∃ test_files,
    find_test_modules lib_world lib_tree = (lib_tree, Done test_files) ∧
    1 ≤ length test_files ∧
    last (trace (main lib_world lib_tree).1) = Some (Printed (ProcessedFiles 1)).
Proof.
  apply (processed_at_most_listed lib_world lib_tree (main lib_world lib_tree).1 1).
  vm_compute. reflexivity.
Defined.

(** ** Imports of a file *)

Lemma imports_from_filter (lines imports : list string) :
  imports_from lines imports = imports ++ filter (λ l, is_import l = true) lines.
Proof.
  revert imports. induction lines as [|l lines IH]; intros imports; simpl.
  { by rewrite app_nil_r. }
  rewrite filter_cons. destruct (is_import l).
  - rewrite decide_True by done. rewrite IH. by rewrite <- app_assoc.
  - rewrite decide_False by done. apply IH.
Qed.



Lemma filter_sublist_mono {A} (P : A → Prop) `{!∀ x, Decision (P x)} (l1 l2 : list A) :
  l1 `sublist_of` l2 → filter P l1 `sublist_of` filter P l2.
Proof.
  induction 1 as [|x l1 l2 _ IH|x l1 l2 _ IH]; [done|..]; rewrite ?filter_cons.
  - case_decide; [by constructor|done].
  - case_decide; [by constructor|done].
Qed.

(** X17: cutting the test module out of a file adds no import: the
    imports of the lines [extract_test_module] returns are a
    sub-sequence of the imports of the file, and those lines are a
    sub-sequence of the file's lines. *)
Theorem extraction_adds_no_import (lines : list string) :
  (extract_lines lines).2 `sublist_of` lines ∧
  imports_from (extract_lines lines).2 [] `sublist_of` imports_from lines [].
Proof.
  assert ((extract_lines lines).2 `sublist_of` lines) as Hsub.
  { destruct (extract_lines lines) as [[block|] rem] eqn:Hex.
    - apply extract_lines_found in Hex as (s & _ & Hse & _ & ->). simpl.
      set (e := test_end (scan_from lines s)) in *.
      destruct (strip_trailing_blank_spec (take s lines ++ drop (S e) lines))
        as (blanks & Heq & _).
      transitivity (take s lines ++ drop (S e) lines).
      + rewrite Heq at 2. by apply sublist_inserts_r.
      + rewrite <- (take_drop s lines) at 3. apply sublist_app; [done|].
        replace (drop (S e) lines) with (drop (S e - s) (drop s lines))
          by (rewrite drop_drop; f_equal; lia).
        apply sublist_drop.
    - unfold extract_lines in Hex.
      destruct (find_test_start lines lines 0); [done|]. by injection Hex as <-. }
  split; [done|]. rewrite !imports_from_filter. simpl.
  by apply filter_sublist_mono.
Qed.

(** ** What is written back *)

(** X18: the lines written back to a source file are read back as
    they were written: the remainder of a file's lines is cut at line
    ends only. *)
Theorem remainder_reads_back (content : string) (block rem : list string) :
  extract_lines (readlines content) = (Some block, rem) →
  readlines (joined rem) = rem.
Proof.
  intros Hex. apply extract_lines_found in Hex as (s & _ & Hse & _ & ->).
  set (lines := readlines content) in *.
  set (e := test_end (scan_from lines s)) in *.
  destruct (strip_trailing_blank_spec (take s lines ++ drop (S e) lines))
    as (blanks & Heq & _).
  apply readlines_joined.
  apply (well_split_prefix _ blanks). rewrite <- Heq.
  apply well_split_around; [apply readlines_well_split|done].
Qed.

Lemma remainder_reads_back_witness : readlines (joined lib_rem) = lib_rem.
Proof. apply (remainder_reads_back lib_rs lib_block lib_rem). by vm_compute. Defined.

(** ** Errors of a run *)




